(** * Schema reconciliation of the NYC-taxi batches: the [clean] helper

    A shallow embedding of the notebook cell

      def clean(ddf, must_haves): ...

    together with the [must_haves] dictionary it is called with.  The
    dataframe engine is an external library: a frame is modelled as an
    ordered dictionary from column names to series, a series as a dtype
    name plus a list of nullable cells, and the engine's element kernels
    (what [astype] does to one cell, how a Python scalar becomes a cell)
    form an interface, [Engine], over which the development is generic. *)

From Stdlib Require Import List String Ascii ZArith Bool Arith Lia QArith.
From Stdlib Require Import Permutation Sorted DecimalString Lqa.
Import ListNotations.
Local Close Scope Q_scope.
Local Open Scope string_scope.

(** ** Python string operations used on column and dtype names

    Names are taken to be ASCII, which is what the CSV headers hold. *)

Module PyStr.

(** [str.isspace] on one ASCII character: TAB..CR, FS..US and the space. *)
Definition isspace (c : ascii) : bool :=
  let n := nat_of_ascii c in
  ((9 <=? n)%nat && (n <=? 13)%nat) || ((28 <=? n)%nat && (n <=? 32)%nat).

Fixpoint lstrip (s : string) : string :=
  match s with
  | EmptyString => EmptyString
  | String c s' => if isspace c then lstrip s' else s
  end.

Fixpoint rstrip (s : string) : string :=
  match s with
  | EmptyString => EmptyString
  | String c s' =>
      match rstrip s' with
      | EmptyString => if isspace c then EmptyString else String c EmptyString
      | r => String c r
      end
  end.

(** [s.strip()] *)
Definition strip (s : string) : string := rstrip (lstrip s).

Definition lower_char (c : ascii) : ascii :=
  let n := nat_of_ascii c in
  if ((65 <=? n)%nat && (n <=? 90)%nat)%bool then ascii_of_nat (n + 32) else c.

(** [s.lower()] *)
Fixpoint lower (s : string) : string :=
  match s with
  | EmptyString => EmptyString
  | String c s' => String (lower_char c) (lower s')
  end.

(** [p in s] for two strings: [p] occurs as a substring of [s]. *)
Fixpoint contains (p s : string) : bool :=
  String.prefix p s ||
  match s with
  | EmptyString => false
  | String _ s' => contains p s'
  end.

End PyStr.

(** ** Exceptions and results *)

Inductive exn : Type :=
| KeyError (key : string)   (* a column looked up by name is not there *)
| ValueError                (* [astype] could not convert a cell *)
| AttributeError            (* an object has no attribute of that name *)
| IndexError.               (* a position that is out of range *)

Inductive result (A : Type) : Type :=
| Ok (a : A)
| Raise (e : exn).
Arguments Ok {A} a.
Arguments Raise {A} e.

Definition bind {A B : Type} (r : result A) (k : A -> result B) : result B :=
  match r with
  | Ok a => k a
  | Raise e => Raise e
  end.

Notation "x <- e ;; k" := (bind e (fun x => k))
  (at level 61, e at next level, right associativity).

(** ** Dictionaries with string keys (insertion-ordered, as in Python) *)

Definition dict (V : Type) : Type := list (string * V).

Fixpoint dict_get {V : Type} (d : dict V) (k : string) : option V :=
  match d with
  | [] => None
  | (k', v) :: d' => if String.eqb k' k then Some v else dict_get d' k
  end.

(** [k in d] *)
Definition dict_mem {V : Type} (d : dict V) (k : string) : bool :=
  match dict_get d k with
  | Some _ => true
  | None => false
  end.

(** [d[k] = v]: overwrite in place when the key exists, append otherwise. *)
Fixpoint dict_set {V : Type} (d : dict V) (k : string) (v : V) : dict V :=
  match d with
  | [] => [(k, v)]
  | (k', v') :: d' =>
      if String.eqb k' k then (k, v) :: d' else (k', v') :: dict_set d' k v
  end.

Definition keys {V : Type} (d : dict V) : list string := map fst d.

(** ** The configuration of the notebook *)

(** Dictionary of required columns and their datatypes. *)
Definition must_haves : dict string :=
  [ ("pickup_datetime",   "datetime64[s]");
    ("dropoff_datetime",  "datetime64[s]");
    ("passenger_count",   "int32");
    ("trip_distance",     "float32");
    ("pickup_longitude",  "float32");
    ("pickup_latitude",   "float32");
    ("rate_code",         "int32");
    ("dropoff_longitude", "float32");
    ("dropoff_latitude",  "float32");
    ("fare_amount",       "float32") ].

(** The rename table written inside [clean]. *)
Definition aliases : dict string :=
  [ ("tpep_pickup_datetime",  "pickup_datetime");
    ("tpep_dropoff_datetime", "dropoff_datetime");
    ("ratecodeid",            "rate_code") ].

(** ** The dataframe engine, as far as [clean] relies on it *)

Class Engine : Type := {
  (** A cell that is not null. *)
  scalar : Type;
  (** What [astype] does to one non-null cell: [cast src tgt v] converts
      [v], a cell of a series of dtype [src], to dtype [tgt]; [None] when
      the engine refuses the conversion. *)
  cast : string -> string -> scalar -> option scalar;
  (** A Python [int] as a cell of a series of the given dtype. *)
  py_int : string -> Z -> scalar
}.

(** Casting a series to the dtype it already has leaves its cells as they
    are. *)
Class EngineLaws (E : Engine) : Prop := {
  cast_same : forall (d : string) (v : scalar), cast d d v = Some v
}.

(** A series over cells of type [T]: the name of its dtype
    ([str(s.dtype)]) and its cells, [None] being the null (missing) cell. *)
Record series (T : Type) : Type := mkSeries {
  dtype : string;
  values : list (option T)
}.
Arguments mkSeries {T} dtype values.
Arguments dtype {T} s.
Arguments values {T} s.

Section Frame.

Context {E : Engine}.

(** The series of the engine. *)
Definition Series : Type := series scalar.

(** A frame: its columns by name, in column order. *)
Definition DataFrame : Type := dict Series.

(** [ddf.columns] *)
Definition columns (ddf : DataFrame) : list string := keys ddf.

(** [ddf[col]] *)
Definition getitem (ddf : DataFrame) (col : string) : result Series :=
  match dict_get ddf col with
  | Some s => Ok s
  | None => Raise (KeyError col)
  end.

(** [ddf[col] = s] *)
Definition setitem (ddf : DataFrame) (col : string) (s : Series) : DataFrame :=
  dict_set ddf col s.

(** [mapper.get(name, name)] *)
Definition mapped (mapper : dict string) (name : string) : string :=
  match dict_get mapper name with
  | Some name' => name'
  | None => name
  end.

(** [ddf.rename(columns=mapper)]: a new frame whose column dictionary is
    rebuilt under the new names in column order; a name produced twice
    keeps its first position and its last series. *)
Definition rename (ddf : DataFrame) (mapper : dict string) : DataFrame :=
  fold_left
    (fun (acc : DataFrame) (kv : string * Series) =>
       dict_set acc (mapped mapper (fst kv)) (snd kv))
    ddf [].

(** [ddf.drop(columns=col)] *)
Definition drop (ddf : DataFrame) (col : string) : DataFrame :=
  filter (fun kv => negb (String.eqb (fst kv) col)) ddf.

Fixpoint cast_cells (src tgt : string) (l : list (option scalar))
  : option (list (option scalar)) :=
  match l with
  | [] => Some []
  | None :: l' =>
      match cast_cells src tgt l' with
      | Some r => Some (None :: r)
      | None => None
      end
  | Some v :: l' =>
      match cast src tgt v, cast_cells src tgt l' with
      | Some w, Some r => Some (Some w :: r)
      | _, _ => None
      end
  end.

(** [s.astype(tgt)]: cell by cell, nulls stay null; raises when one cell
    cannot be converted. *)
Definition astype (s : Series) (tgt : string) : result Series :=
  match cast_cells (dtype s) tgt (values s) with
  | Some l => Ok (mkSeries tgt l)
  | None => Raise ValueError
  end.

Definition fill (v : scalar) (l : list (option scalar)) : list (option scalar) :=
  map (fun c => match c with Some w => Some w | None => Some v end) l.

(** [s.str.fillna(v)]: the string accessor [s.str] has no attribute
    [fillna] (the series itself has one, the accessor has not), so
    looking it up raises before anything is filled. *)
Definition str_fillna (s : Series) (v : string) : result Series :=
  Raise AttributeError.

(** [s.fillna(v)] for a Python integer [v] *)
Definition fillna (s : Series) (v : Z) : Series :=
  mkSeries (dtype s) (fill (py_int (dtype s) v) (values s)).

(** ** [clean], on frames as values *)

(** One turn of [for col in ddf.columns:]. *)
Definition clean_body (must_haves : dict string) (ddf : DataFrame) (col : string)
  : result DataFrame :=
  if negb (dict_mem must_haves col) then
    Ok (drop ddf col)
  else
    s <- getitem ddf col ;;
    if String.eqb (dtype s) "object" then
      s <- getitem ddf col ;;
      s <- str_fillna s "-1" ;;
      let ddf := setitem ddf col s in
      s <- getitem ddf col ;;
      s <- astype s "float32" ;;
      Ok (setitem ddf col s)
    else
      s <- getitem ddf col ;;
      ddf <- (if PyStr.contains "int" (dtype s) then
                s <- getitem ddf col ;;
                s <- astype s "int32" ;;
                Ok (setitem ddf col s)
              else Ok ddf) ;;
      s <- getitem ddf col ;;
      ddf <- (if PyStr.contains "float" (dtype s) then
                s <- getitem ddf col ;;
                s <- astype s "float32" ;;
                Ok (setitem ddf col s)
              else Ok ddf) ;;
      s <- getitem ddf col ;;
      Ok (setitem ddf col (fillna s (-1))).

Fixpoint clean_loop (must_haves : dict string) (cols : list string)
  (ddf : DataFrame) : result DataFrame :=
  match cols with
  | [] => Ok ddf
  | col :: cols' =>
      ddf <- clean_body must_haves ddf col ;;
      clean_loop must_haves cols' ddf
  end.

(** The two renames at the top of [clean]. *)
Definition renamed (ddf : DataFrame) : DataFrame :=
  let tmp := map (fun col => (col, PyStr.lower (PyStr.strip col))) (columns ddf) in
  let ddf := rename ddf tmp in
  rename ddf aliases.

(** The statements before the loop: both renames and the two timestamp
    casts. *)
Definition clean_head (ddf : DataFrame) : result DataFrame :=
  let ddf := renamed ddf in
  s <- getitem ddf "pickup_datetime" ;;
  s <- astype s "datetime64[ms]" ;;
  let ddf := setitem ddf "pickup_datetime" s in
  s <- getitem ddf "dropoff_datetime" ;;
  s <- astype s "datetime64[ms]" ;;
  let ddf := setitem ddf "dropoff_datetime" s in
  Ok ddf.

Definition clean (ddf : DataFrame) (must_haves : dict string) : result DataFrame :=
  ddf <- clean_head ddf ;;
  clean_loop must_haves (columns ddf) ddf.

(** ** [clean], on frames as objects

    The same statements over a store of frame objects: [ddf] is a
    reference, [rename] and [drop] allocate a new frame, [ddf[col] = s]
    updates the frame [ddf] refers to.  Series are immutable values:
    [astype] and [fillna] build new ones. *)

Definition ref : Type := nat.
Definition store : Type := list DataFrame.

(** A computation on the store that may raise. *)
Definition M (A : Type) : Type := store -> store * result A.

Definition ret {A : Type} (a : A) : M A := fun h => (h, Ok a).

Definition raise_of {A : Type} (r : result A) : M A := fun h => (h, r).

Definition mbind {A B : Type} (m : M A) (k : A -> M B) : M B :=
  fun h =>
    match m h with
    | (h', Ok a) => k a h'
    | (h', Raise e) => (h', Raise e)
    end.

Notation "x <~ e ;; k" := (mbind e (fun x => k))
  (at level 61, e at next level, right associativity).

Definition deref (r : ref) : M DataFrame := fun h => (h, Ok (nth r h [])).

Definition alloc (f : DataFrame) : M ref := fun h => ((h ++ [f])%list, Ok (List.length h)).

Fixpoint update (h : store) (r : ref) (f : DataFrame) : store :=
  match h, r with
  | [], _ => []
  | _ :: h', O => f :: h'
  | g :: h', S r' => g :: update h' r' f
  end.

Definition assign (r : ref) (f : DataFrame) : M unit :=
  fun h => (update h r f, Ok tt).

Definition columns_m (ddf : ref) : M (list string) :=
  f <~ deref ddf ;; ret (columns f).

Definition getitem_m (ddf : ref) (col : string) : M Series :=
  f <~ deref ddf ;; raise_of (getitem f col).

Definition setitem_m (ddf : ref) (col : string) (s : Series) : M unit :=
  f <~ deref ddf ;; assign ddf (setitem f col s).

Definition rename_m (ddf : ref) (mapper : dict string) : M ref :=
  f <~ deref ddf ;; alloc (rename f mapper).

Definition drop_m (ddf : ref) (col : string) : M ref :=
  f <~ deref ddf ;; alloc (drop f col).

Definition clean_body_m (must_haves : dict string) (ddf : ref) (col : string)
  : M ref :=
  if negb (dict_mem must_haves col) then
    drop_m ddf col
  else
    s <~ getitem_m ddf col ;;
    if String.eqb (dtype s) "object" then
      s <~ getitem_m ddf col ;;
      s <~ raise_of (str_fillna s "-1") ;;
      _ <~ setitem_m ddf col s ;;
      s <~ getitem_m ddf col ;;
      s <~ raise_of (astype s "float32") ;;
      _ <~ setitem_m ddf col s ;;
      ret ddf
    else
      s <~ getitem_m ddf col ;;
      _ <~ (if PyStr.contains "int" (dtype s) then
              s <~ getitem_m ddf col ;;
              s <~ raise_of (astype s "int32") ;;
              setitem_m ddf col s
            else ret tt) ;;
      s <~ getitem_m ddf col ;;
      _ <~ (if PyStr.contains "float" (dtype s) then
              s <~ getitem_m ddf col ;;
              s <~ raise_of (astype s "float32") ;;
              setitem_m ddf col s
            else ret tt) ;;
      s <~ getitem_m ddf col ;;
      _ <~ setitem_m ddf col (fillna s (-1)) ;;
      ret ddf.

Fixpoint clean_loop_m (must_haves : dict string) (cols : list string)
  (ddf : ref) : M ref :=
  match cols with
  | [] => ret ddf
  | col :: cols' =>
      ddf <~ clean_body_m must_haves ddf col ;;
      clean_loop_m must_haves cols' ddf
  end.

Definition clean_m (ddf : ref) (must_haves : dict string) : M ref :=
  cols <~ columns_m ddf ;;
  let tmp := map (fun col => (col, PyStr.lower (PyStr.strip col))) cols in
  ddf <~ rename_m ddf tmp ;;
  ddf <~ rename_m ddf aliases ;;
  s <~ getitem_m ddf "pickup_datetime" ;;
  s <~ raise_of (astype s "datetime64[ms]") ;;
  _ <~ setitem_m ddf "pickup_datetime" s ;;
  s <~ getitem_m ddf "dropoff_datetime" ;;
  s <~ raise_of (astype s "datetime64[ms]") ;;
  _ <~ setitem_m ddf "dropoff_datetime" s ;;
  cols <~ columns_m ddf ;;
  clean_loop_m must_haves cols ddf.

End Frame.

(** ** Derived forms

    What the statements of [clean] amount to, column by column; each is
    proved equal to the code above before it is used. *)

(** The keys of a dictionary after [d[k] = v]. *)
Fixpoint add_key (l : list string) (k : string) : list string :=
  match l with
  | [] => [k]
  | k' :: l' => if String.eqb k' k then k :: l' else k' :: add_key l' k
  end.

(** The keys of a dictionary filled in the order of [l]. *)
Definition uniq (l : list string) : list string := fold_left add_key l [].

(** [col.strip().lower()] *)
Definition normal (col : string) : string := PyStr.lower (PyStr.strip col).

(** The name a raw column ends up with after both renames. *)
Definition canonical (col : string) : string := mapped aliases (normal col).

(** [a] is, up to blanks around it and the case of its letters, one of the
    three names that [clean] replaces, and [c] is the name it is replaced
    by. *)
Definition alias_of (a c : string) : Prop :=
  (PyStr.lower (PyStr.strip a) = "tpep_pickup_datetime" /\ c = "pickup_datetime") \/
  (PyStr.lower (PyStr.strip a) = "tpep_dropoff_datetime" /\ c = "dropoff_datetime") \/
  (PyStr.lower (PyStr.strip a) = "ratecodeid" /\ c = "rate_code").

Section Derived.

Context {E : Engine}.

(** What one turn of the loop does to the series of a column it keeps. *)
Definition coerce (s : Series) : result Series :=
  if String.eqb (dtype s) "object" then
    s <- str_fillna s "-1" ;;
    astype s "float32"
  else
    s <- (if PyStr.contains "int" (dtype s) then astype s "int32" else Ok s) ;;
    s <- (if PyStr.contains "float" (dtype s) then astype s "float32" else Ok s) ;;
    Ok (fillna s (-1)).

(** The dtype [coerce] leaves a series of dtype [d] with, [d] not being
    ["object"]. *)
Definition coerced_dtype (d : string) : string :=
  let d := if PyStr.contains "int" d then "int32" else d in
  if PyStr.contains "float" d then "float32" else d.



(** The whole loop: the columns named in [must_haves], coerced, in order. *)
Fixpoint project (must_haves : dict string) (ddf : DataFrame) : result DataFrame :=
  match ddf with
  | [] => Ok []
  | (col, s) :: ddf' =>
      if dict_mem must_haves col then
        s' <- coerce s ;;
        r <- project must_haves ddf' ;;
        Ok ((col, s') :: r)
      else project must_haves ddf'
  end.

(** No cell of the series is null. *)
Definition no_nulls (s : Series) : Prop :=
  Forall (fun c => c <> None) (values s).

(** Every column of [b] keeps a name of its own through both renames. *)
Definition collision_free (b : DataFrame) : Prop :=
  NoDup (map canonical (columns b)).

(** Every key of [must_haves] names a column of [b] after both renames. *)
Definition covers (b : DataFrame) (must_haves : dict string) : Prop :=
  forall k, In k (keys must_haves) -> In k (map canonical (columns b)).

(** [covers], decided. *)
Definition coversb (b : DataFrame) (must_haves : dict string) : bool :=
  forallb (fun k => existsb (String.eqb k) (map canonical (columns b)))
          (keys must_haves).

(** The columns of [k]'s kind agree in [b1] and [b2]: [k] is a timestamp
    column, or the dtypes it has in the two renamed batches are coerced
    to the same dtype. *)
Definition same_kind (b1 b2 : DataFrame) (k : string) : Prop :=
  k = "pickup_datetime" \/ k = "dropoff_datetime" \/
  exists n1 n2,
    dict_get (renamed b1) k = Some n1 /\ dict_get (renamed b2) k = Some n2 /\
    coerced_dtype (dtype n1) = coerced_dtype (dtype n2).

(** The step of the fold inside [rename], for any renaming function. *)
Definition step (g : string -> string) (acc : DataFrame) (kv : string * Series)
  : DataFrame :=
  dict_set acc (g (fst kv)) (snd kv).

(** [h] holds the frames of [h0], untouched, and possibly new ones. *)
Definition extends (h0 h : store) : Prop := exists ext, h = (h0 ++ ext)%list.

(** What a computation that returns a reference has to do to stand for a
    computation on frame values: leave the frames of [h0] alone, raise
    what the other raises, return a reference to the frame it returns. *)
Definition stands_for (h0 : store) (run : store * result ref)
  (pure : result DataFrame) : Prop :=
  extends h0 (fst run) /\
  match pure with
  | Ok f =>
      exists r, snd run = Ok r /\
                (List.length h0 <= r < List.length (fst run))%nat /\
                nth r (fst run) [] = f
  | Raise e => snd run = Raise e
  end.

End Derived.

(** ** A sample engine

    A small executable engine on which the statements below are exercised:
    strings, integers, floats written as the rational they denote (the
    rounding of a narrowing cast is left out, the sample data being exact
    in binary32), and timestamps counted in the unit of their dtype. *)

Module Sample.

Inductive cell : Type :=
| Str (s : string)
| Int (z : Z)
| Flt (q : Q)
| Stamp (t : Z).

Definition digit (c : ascii) : option Z :=
  let n := nat_of_ascii c in
  if ((48 <=? n)%nat && (n <=? 57)%nat)%bool then Some (Z.of_nat (n - 48)) else None.

(** Digits with at most one decimal point: the digits read as one integer,
    and the power of ten that the point divides it by. *)
Fixpoint scan (s : string) (dot : bool) (m : Z) (scale : positive) (n : nat)
  : option (Z * positive) :=
  match s with
  | EmptyString => if (n =? 0)%nat then None else Some (m, scale)
  | String c s' =>
      if Ascii.eqb c "."%char then
        if dot then None else scan s' true m scale n
      else
        match digit c with
        | Some d => scan s' dot (10 * m + d)%Z (if dot then (10 * scale)%positive else scale) (S n)
        | None => None
        end
  end.

(** A decimal literal, with an optional sign. *)
Definition parse_decimal (s : string) : option Q :=
  let signed :=
    match s with
    | String c s' =>
        if Ascii.eqb c "-"%char then (true, s')
        else if Ascii.eqb c "+"%char then (false, s')
        else (false, s)
    | EmptyString => (false, s)
    end in
  match scan (snd signed) false 0%Z 1%positive 0 with
  | Some (m, scale) => Some (Qred ((if fst signed then - m else m)%Z # scale))
  | None => None
  end.

Definition parse_nat (s : string) : option Z :=
  match scan s true 0%Z 1%positive 0 with
  | Some (m, _) => Some m
  | None => None
  end.

(** Days from 1970-01-01 to a date of the proleptic Gregorian calendar. *)
Definition days_from_civil (y m d : Z) : Z :=
  let y := (if m <=? 2 then y - 1 else y)%Z in
  let era := (y / 400)%Z in
  let yoe := (y - era * 400)%Z in
  let doy := ((153 * (if m >? 2 then m - 3 else m + 9) + 2) / 5 + d - 1)%Z in
  let doe := (yoe * 365 + yoe / 4 - yoe / 100 + doy)%Z in
  (era * 146097 + doe - 719468)%Z.

(** ["YYYY-MM-DD hh:mm:ss"] as seconds since the epoch. *)
Definition parse_timestamp (s : string) : option Z :=
  if negb ((String.length s =? 19)%nat
           && String.eqb (substring 4 1 s) "-" && String.eqb (substring 7 1 s) "-"
           && String.eqb (substring 10 1 s) " "
           && String.eqb (substring 13 1 s) ":" && String.eqb (substring 16 1 s) ":")
  then None
  else
    match parse_nat (substring 0 4 s), parse_nat (substring 5 2 s),
          parse_nat (substring 8 2 s), parse_nat (substring 11 2 s),
          parse_nat (substring 14 2 s), parse_nat (substring 17 2 s) with
    | Some y, Some mo, Some d, Some h, Some mi, Some sec =>
        if ((1 <=? mo) && (mo <=? 12) && (1 <=? d) && (d <=? 31)
            && (h <? 24) && (mi <? 60) && (sec <? 60))%Z
        then Some (days_from_civil y mo d * 86400 + h * 3600 + mi * 60 + sec)%Z
        else None
    | _, _, _, _, _, _ => None
    end.

(** Ticks per second of a [datetime64] dtype. *)
Definition ticks (d : string) : option Z :=
  if String.eqb d "datetime64[s]" then Some 1%Z
  else if String.eqb d "datetime64[ms]" then Some 1000%Z
  else if String.eqb d "datetime64[us]" then Some 1000000%Z
  else if String.eqb d "datetime64[ns]" then Some 1000000000%Z
  else None.

(** Width of a signed integer dtype. *)
Definition bits (d : string) : option Z :=
  if String.eqb d "int8" then Some 8%Z
  else if String.eqb d "int16" then Some 16%Z
  else if String.eqb d "int32" then Some 32%Z
  else if String.eqb d "int64" then Some 64%Z
  else None.

Definition is_float (d : string) : bool :=
  String.eqb d "float32" || String.eqb d "float64".

Definition wrap (w z : Z) : Z :=
  ((z + 2 ^ (w - 1)) mod 2 ^ w - 2 ^ (w - 1))%Z.

(** Round toward zero. *)
Definition truncate (q : Q) : Z := Z.quot (Qnum q) (Zpos (Qden q)).

Definition sample_cast (src tgt : string) (v : cell) : option cell :=
  if String.eqb src tgt then Some v
  else
    match v with
    | Str s =>
        if is_float tgt then option_map Flt (parse_decimal s)
        else
          match ticks tgt with
          | Some k => option_map (fun t => Stamp (t * k)) (parse_timestamp s)
          | None => None
          end
    | Int z =>
        if is_float tgt then Some (Flt (inject_Z z))
        else
          match bits tgt, ticks tgt with
          | Some w, _ => Some (Int (wrap w z))
          | None, Some _ => Some (Stamp z)
          | None, None => None
          end
    | Flt q =>
        if is_float tgt then Some (Flt q)
        else
          match bits tgt with
          | Some w => Some (Int (wrap w (truncate q)))
          | None => None
          end
    | Stamp t =>
        match ticks src, ticks tgt, bits tgt with
        | Some k, Some k', _ => Some (Stamp (t * k' / k))
        | _, None, Some w => Some (Int (wrap w t))
        | _, _, _ => None
        end
    end.

Definition sample_int (d : string) (z : Z) : cell :=
  if is_float d then Flt (inject_Z z)
  else match ticks d with
       | Some _ => Stamp z
       | None => Int z
       end.

#[export] Instance engine : Engine := {
  scalar := cell;
  cast := sample_cast;
  py_int := sample_int
}.

(** A 2015-vintage batch as the CSV reader hands it over: aliased and
    padded names, text timestamps, 64-bit numbers, one column that
    [must_haves] does not ask for. *)
Definition batch_2015 : DataFrame :=
  [ ("VendorID",               mkSeries "int64"   [Some (Int 2); Some (Int 1)]);
    ("tpep_pickup_datetime",   mkSeries "object"  [Some (Str "2015-01-15 19:05:39"); Some (Str "2015-01-10 20:33:38")]);
    ("tpep_dropoff_datetime",  mkSeries "object"  [Some (Str "2015-01-15 19:23:42"); None]);
    ("passenger_count",        mkSeries "int64"   [Some (Int 1); None]);
    ("trip_distance",          mkSeries "float64" [Some (Flt (3 # 2)); Some (Flt (13 # 4))]);
    ("pickup_longitude",       mkSeries "float64" [Some (Flt (-74 # 1)); Some (Flt (-74 # 1))]);
    ("pickup_latitude",        mkSeries "float64" [Some (Flt (163 # 4)); Some (Flt (163 # 4))]);
    (" RateCodeID ",           mkSeries "int64"   [Some (Int 1); Some (Int 1)]);
    ("dropoff_longitude",      mkSeries "float64" [Some (Flt (-74 # 1)); None]);
    ("dropoff_latitude",       mkSeries "float64" [Some (Flt (163 # 4)); Some (Flt (163 # 4))]);
    ("Fare_Amount",            mkSeries "float64" [Some (Flt (25 # 2)); None]) ].

(** A 2014-vintage batch: canonical names behind a leading space, and a
    passenger count that the reader took for floating-point numbers. *)
Definition batch_2014 : DataFrame :=
  [ ("vendor_id",          mkSeries "object"  [Some (Str "CMT")]);
    (" pickup_datetime",   mkSeries "object"  [Some (Str "2014-01-09 20:45:25")]);
    (" dropoff_datetime",  mkSeries "object"  [Some (Str "2014-01-09 20:52:31")]);
    (" passenger_count",   mkSeries "float64" [Some (Flt (1 # 1))]);
    (" trip_distance",     mkSeries "float64" [Some (Flt (3 # 4))]);
    (" pickup_longitude",  mkSeries "float64" [Some (Flt (-74 # 1))]);
    (" pickup_latitude",   mkSeries "float64" [Some (Flt (163 # 4))]);
    (" rate_code",         mkSeries "int64"   [Some (Int 1)]);
    (" dropoff_longitude", mkSeries "float64" [Some (Flt (-74 # 1))]);
    (" dropoff_latitude",  mkSeries "float64" [Some (Flt (163 # 4))]);
    (" fare_amount",       mkSeries "float64" [Some (Flt (13 # 2))]) ].


Definition stamps : Series :=
  mkSeries "object"
    [Some (Str "2014-01-09 20:45:25"); Some (Str "2014-01-09 20:52:31");
     Some (Str "2014-01-09 21:00:00")].

(** [stamps], cast to milliseconds. *)
Definition stamps_ms : Series :=
  mkSeries "datetime64[ms]"
    [Some (Stamp 1389300325000); Some (Stamp 1389300751000);
     Some (Stamp 1389301200000)].

Definition rate_codes : Series :=
  mkSeries "int64" [Some (Int 1); Some (Int 2); None].

(** A batch without most of the required columns. *)
Definition batch_short : DataFrame :=
  [ ("pickup_datetime",  stamps);
    ("dropoff_datetime", stamps);
    ("passenger_count",  mkSeries "int64" [Some (Int 1); Some (Int 2); None]) ].

(** A fare column read as text, with an empty cell. *)
Definition text_fares : Series :=
  mkSeries "object" [Some (Str "12.5"); None; Some (Str "9.0")].

Definition batch_fares : DataFrame :=
  [ ("pickup_datetime",  stamps);
    ("dropoff_datetime", stamps);
    ("fare_amount",      text_fares) ].

(** A fare column with a malformed number. *)
Definition malformed_fares : Series :=
  mkSeries "object" [Some (Str "12.5"); Some (Str "12.5.3"); None].

Definition batch_malformed : DataFrame :=
  [ ("pickup_datetime",  stamps);
    ("dropoff_datetime", stamps);
    ("fare_amount",      malformed_fares) ].

(** A batch of no rows: the timestamp columns alone, without a cell. *)
Definition batch_empty : DataFrame :=
  [ ("pickup_datetime",  mkSeries "object" []);
    ("dropoff_datetime", mkSeries "object" []) ].

(** Aliased, padded and capitalised names, and a column nobody asked for. *)
Definition batch_aliased : DataFrame :=
  [ ("Tpep_Pickup_Datetime ",  stamps);
    (" tpep_dropoff_datetime", stamps);
    ("store_and_fwd_flag",     mkSeries "object" [Some (Str "N"); Some (Str "N"); Some (Str "Y")]);
    ("passenger_count",        mkSeries "int64" [Some (Int 1); Some (Int 2); None]) ].

Definition spec_aliased : dict string :=
  [ ("pickup_datetime", "datetime64[s]"); ("dropoff_datetime", "datetime64[s]");
    ("passenger_count", "int32") ].

(** A batch and a column specification without drop-off times. *)
Definition batch_pickup_only : DataFrame :=
  [ ("Tpep_Pickup_Datetime ", stamps);
    ("passenger_count",       mkSeries "int64" [Some (Int 1); Some (Int 2); None]) ].

Definition spec_pickup_only : dict string :=
  [ ("pickup_datetime", "datetime64[s]"); ("passenger_count", "int32") ].

(** What [clean] returns for [must_haves], the empty frame standing for an
    exception. *)
Definition cleaned (b : DataFrame) : DataFrame :=
  match clean b must_haves with
  | Ok out => out
  | Raise _ => []
  end.

End Sample.

(** ** The rest of the notebook: what is done with the cleaned batches *)

(** *** Partitioned frames *)

Section Pipeline.

Context {E : Engine}.

(** [len(df)], the number of rows, read off the first column: the frames
    it is asked of below have the timestamp columns at least. *)
Definition nrows (df : DataFrame) : nat :=
  match df with
  | [] => 0
  | (_, s) :: _ => List.length (values s)
  end.

(** The frame a dictionary given as [meta] stands for: its keys as
    columns, in order, each an empty series of the dtype named. *)
Definition meta_frame (meta : dict string) : DataFrame :=
  map (fun kd => (fst kd, mkSeries (snd kd) [])) meta.

(** What [map_partitions] runs on one partition: [f] with its argument,
    then the check of what it returns against [meta].  An empty result is
    replaced by [meta]; the columns of any other have to be those of
    [meta], name by name and in order. *)
Definition apply_and_enforce (f : DataFrame -> dict string -> result DataFrame)
  (arg meta : dict string) (p : DataFrame) : result DataFrame :=
  out <- f p arg ;;
  if (nrows out =? 0)%nat then Ok (meta_frame meta)
  else if list_eq_dec string_dec (columns out) (keys meta) then Ok out
  else Raise ValueError.

(** [df.map_partitions(f, arg, meta=meta)], computed: every partition in
    partition order; the whole raises when one partition does (the first
    such partition is taken for the exception shown). *)
Fixpoint map_partitions (f : DataFrame -> dict string -> result DataFrame)
  (arg meta : dict string) (df : list DataFrame) : result (list DataFrame) :=
  match df with
  | [] => Ok []
  | p :: df' =>
      q <- apply_and_enforce f arg meta p ;;
      r <- map_partitions f arg meta df' ;;
      Ok (q :: r)
  end.

(** The three years, cleaned partition by partition and concatenated. *)
Definition taxi_df (df_2014 df_2015 df_2016 : list DataFrame)
  : result (list DataFrame) :=
  df_2014 <- map_partitions clean must_haves must_haves df_2014 ;;
  df_2015 <- map_partitions clean must_haves must_haves df_2015 ;;
  df_2016 <- map_partitions clean must_haves must_haves df_2016 ;;
  Ok (List.concat [df_2014; df_2015; df_2016]).

End Pipeline.

Section Partitions.

(** A partition and its [len]. *)
Variable P : Type.
Variable len : P -> nat.

(** The partitions of [df] at the positions where [mask] is true. *)
Fixpoint selected (df : list P) (mask : list bool) : list P :=
  match df, mask with
  | p :: df', b :: mask' =>
      if b then p :: selected df' mask' else selected df' mask'
  | _, _ => []
  end.

(** [df.partitions[mask]] for a list of booleans as long as [df]: the
    frame of the selected partitions.  Its divisions are read off the last
    of them, so that selecting none raises. *)
Definition partitions (df : list P) (mask : list bool) : result (list P) :=
  match selected df mask with
  | [] => Raise IndexError
  | p :: ps => Ok (p :: ps)
  end.

Definition drop_empty_partitions (df : list P) : result (list P) :=
  let lengths := map len df in
  let nonempty := map (fun length => (0 <? length)%nat) lengths in
  partitions df nonempty.

End Partitions.
Arguments selected {P} df mask.
Arguments partitions {P} df mask.
Arguments drop_empty_partitions {P} len df.

(** *** Queries

    The expressions the notebook hands to [query] as text, as syntax
    trees; a row gives every column a number (a timestamp by its count
    since the epoch), none of them NaN. *)

Inductive term : Type :=
| Col (name : string)
| Num (z : Z).

Inductive cond : Type :=
| Less (a b : term)        (* a < b *)
| Greater (a b : term)     (* a > b *)
| AtMost (a b : term)      (* a <= b *)
| AtLeast (a b : term)     (* a >= b *)
| And (p q : cond)         (* p and q *)
| Not (p : cond).          (* not p *)

Definition row : Type := string -> Q.

(** The row [r] with [v] in column [col]. *)
Definition with_col (r : row) (col : string) (v : Q) : row :=
  fun name => if String.eqb name col then v else r name.

(** The columns the outlier filter reads. *)
Definition filter_columns : list string :=
  [ "fare_amount"; "passenger_count"; "pickup_longitude"; "dropoff_longitude";
    "pickup_latitude"; "dropoff_latitude"; "trip_distance";
    "dropoff_datetime"; "pickup_datetime" ].

Definition eval_term (r : row) (t : term) : Q :=
  match t with
  | Col name => r name
  | Num z => inject_Z z
  end.

Definition Qltb (x y : Q) : bool := negb (Qle_bool y x).

Fixpoint eval (r : row) (c : cond) : bool :=
  match c with
  | Less a b => Qltb (eval_term r a) (eval_term r b)
  | Greater a b => Qltb (eval_term r b) (eval_term r a)
  | AtMost a b => Qle_bool (eval_term r a) (eval_term r b)
  | AtLeast a b => Qle_bool (eval_term r b) (eval_term r a)
  | And p q => eval r p && eval r q
  | Not p => negb (eval r p)
  end.

(** [' and '.join(frags)] for fragments that hold no [or]: nothing to
    evaluate when the list is empty. *)
Fixpoint join_and (frags : list cond) : option cond :=
  match frags with
  | [] => None
  | [f] => Some f
  | f :: fs => option_map (And f) (join_and fs)
  end.

(** [df.query(expr)]: the rows of every partition that satisfy [expr]. *)
Definition query (expr : cond) (df : list (list row)) : list (list row) :=
  map (filter (fun r => eval r expr)) df.

Definition query_frags : list cond :=
  [ And (Greater (Col "fare_amount") (Num 1)) (Less (Col "fare_amount") (Num 500));
    And (Greater (Col "passenger_count") (Num 0)) (Less (Col "passenger_count") (Num 6));
    And (Greater (Col "pickup_longitude") (Num (-75))) (Less (Col "pickup_longitude") (Num (-73)));
    And (Greater (Col "dropoff_longitude") (Num (-75))) (Less (Col "dropoff_longitude") (Num (-73)));
    And (Greater (Col "pickup_latitude") (Num 40)) (Less (Col "pickup_latitude") (Num 42));
    And (Greater (Col "dropoff_latitude") (Num 40)) (Less (Col "dropoff_latitude") (Num 42));
    And (Greater (Col "trip_distance") (Num 0)) (Less (Col "trip_distance") (Num 500));
    Not (And (Greater (Col "trip_distance") (Num 50)) (Less (Col "fare_amount") (Num 50)));
    Not (And (Less (Col "trip_distance") (Num 10)) (Greater (Col "fare_amount") (Num 300)));
    Not (AtMost (Col "dropoff_datetime") (Col "pickup_datetime")) ].

(** A row satisfies every fragment. *)
Definition passes (r : row) : bool := forallb (eval r) query_frags.

(** [taxi_df.query(' and '.join(query_frags))] *)
Definition filter_outliers (df : list (list row)) : result (list (list row)) :=
  match join_and query_frags with
  | Some expr => Ok (query expr df)
  | None => Raise ValueError
  end.

(** The training rows and the held-out rows. *)
Definition X_train (df : list (list row)) : list (list row) :=
  query (Less (Col "day") (Num 25)) df.

Definition X_test (df : list (list row)) : result (list (list row)) :=
  drop_empty_partitions (@List.length row) (query (AtLeast (Col "day") (Num 25)) df).

(** *** Month names and file names *)

(** [str(x)] for a natural number. *)
Definition str (x : nat) : string := NilEmpty.string_of_uint (Nat.to_uint x).

Fixpoint repeat_char (c : ascii) (n : nat) : string :=
  match n with
  | O => EmptyString
  | S n' => String c (repeat_char c n')
  end.

(** [s.rjust(width, fillchar)] *)
Definition rjust (s : string) (width : nat) (fillchar : ascii) : string :=
  repeat_char fillchar (width - String.length s) ++ s.

(** [str(x).rjust(2, '0')] *)
Definition month_name (x : nat) : string := rjust (str x) 2 "0"%char.

(** [[str(x).rjust(2, '0') for x in range(1, 7)]] *)
Definition months : list string := map month_name (seq 1 6).

Definition valid_files (base_path : string) : list string :=
  map (fun month => base_path ++ "2016/yellow_tripdata_2016-" ++ month ++ ".csv") months.

(** [int(s)] for a string of decimal digits. *)
Definition int_of (s : string) : option nat :=
  option_map Nat.of_uint (NilEmpty.uint_of_string s).

(** *** Features and target *)

Fixpoint insert_sorted (k : string) (l : list string) : list string :=
  match l with
  | [] => [k]
  | x :: l' => if String.leb k x then k :: l else x :: insert_sorted k l'
  end.

(** A list of names in increasing order. *)
Definition sort_names (l : list string) : list string :=
  fold_right insert_sorted [] l.

(** [index.difference(other)]: the names of [index] that are not in
    [other], each once, sorted; with nothing in [other], the names of
    [index], each once, in the order they have in [index]. *)
Definition difference (index other : list string) : list string :=
  match other with
  | [] => uniq index
  | _ :: _ =>
      sort_names
        (filter (fun c => negb (existsb (String.eqb c) other))
                (nodup string_dec index))
  end.

Section Features.

Context {E : Engine}.

(** [df[cols]] for a list of names. *)
Fixpoint getitem_list (df : DataFrame) (cols : list string) : result DataFrame :=
  match cols with
  | [] => Ok []
  | col :: cols' =>
      s <- getitem df col ;;
      r <- getitem_list df cols' ;;
      Ok ((col, s) :: r)
  end.

(** The target frame and the feature frame cut out of one frame:
    [Y = X[['fare_amount']]], then
    [X = X[X.columns.difference(['fare_amount'])]]. *)
Definition features_target (X : DataFrame) : result (DataFrame * DataFrame) :=
  Y <- getitem_list X ["fare_amount"] ;;
  X <- getitem_list X (difference (columns X) ["fare_amount"]) ;;
  Ok (X, Y).

(** *** [haversine_dist] *)

(** [cuspatial.haversine_distance] on four series: a kernel of its own. *)
Variable haversine_distance : Series -> Series -> Series -> Series -> result Series.

(** On a frame as a value. *)
Definition haversine_dist (df : DataFrame) : result DataFrame :=
  a <- getitem df "pickup_longitude" ;;
  b <- getitem df "pickup_latitude" ;;
  c <- getitem df "dropoff_longitude" ;;
  d <- getitem df "dropoff_latitude" ;;
  h <- haversine_distance a b c d ;;
  let df := setitem df "h_distance" h in
  s <- getitem df "h_distance" ;;
  s <- astype s "float32" ;;
  let df := setitem df "h_distance" s in
  Ok df.

(** On a frame as an object: the assignments update the frame [df]
    refers to, and that reference is returned. *)
Definition haversine_dist_m (df : ref) : M ref :=
  mbind (getitem_m df "pickup_longitude") (fun a =>
  mbind (getitem_m df "pickup_latitude") (fun b =>
  mbind (getitem_m df "dropoff_longitude") (fun c =>
  mbind (getitem_m df "dropoff_latitude") (fun d =>
  mbind (raise_of (haversine_distance a b c d)) (fun h =>
  mbind (setitem_m df "h_distance" h) (fun _ =>
  mbind (getitem_m df "h_distance") (fun s =>
  mbind (raise_of (astype s "float32")) (fun s =>
  mbind (setitem_m df "h_distance" s) (fun _ =>
  ret df))))))))).

End Features.

(** *** Sample rows and a sample distance kernel *)

Module SampleTrips.

Local Open Scope Q_scope.

(** A plausible trip, as a row: times in milliseconds. *)
Definition good_trip : row :=
  fun name =>
    if String.eqb name "fare_amount" then 25 # 2
    else if String.eqb name "passenger_count" then 1 # 1
    else if String.eqb name "trip_distance" then 3 # 1
    else if String.eqb name "pickup_longitude" then -7398 # 100
    else if String.eqb name "dropoff_longitude" then -7396 # 100
    else if String.eqb name "pickup_latitude" then 4075 # 100
    else if String.eqb name "dropoff_latitude" then 4077 # 100
    else if String.eqb name "rate_code" then 1 # 1
    else if String.eqb name "pickup_datetime" then 1421348739000 # 1
    else if String.eqb name "dropoff_datetime" then 1421349822000 # 1
    else if String.eqb name "day" then 15 # 1
    else 0.

Local Close Scope Q_scope.

(** The same trip on the 28th. *)
Definition late_trip : row := with_col good_trip "day" (28 # 1).

(** A stand-in for the distance kernel: a [float64] series of zeros, as
    long as its first argument. *)
Definition zero_distance (a b c d : @Series Sample.engine) : result (@Series Sample.engine) :=
  Ok (mkSeries "float64" (map (fun _ => Some (Sample.Flt 0)) (values a))).

(** What [haversine_dist] with the stand-in kernel makes of the cleaned
    2015 batch. *)
Definition with_distance : @DataFrame Sample.engine :=
  match haversine_dist zero_distance (Sample.cleaned Sample.batch_2015) with
  | Ok f => f
  | Raise _ => []
  end.

(** What [clean] returns for a column specification, the empty frame
    standing for an exception. *)
Definition cleaned_by (mh : dict string) (b : @DataFrame Sample.engine)
  : @DataFrame Sample.engine :=
  match clean b mh with
  | Ok out => out
  | Raise _ => []
  end.

End SampleTrips.

(** * Facts *)

(** ** Strings *)

Module PyStrFacts.
Import PyStr.

Lemma isspace_lower_char (c : ascii) : isspace (lower_char c) = isspace c.
Proof. destruct c as [[] [] [] [] [] [] [] []]; reflexivity. Qed.

Lemma lower_char_idem (c : ascii) : lower_char (lower_char c) = lower_char c.
Proof. destruct c as [[] [] [] [] [] [] [] []]; reflexivity. Qed.

Lemma lower_idem (s : string) : lower (lower s) = lower s.
Proof.
  induction s as [|c s IH]; simpl; [reflexivity|].
  now rewrite lower_char_idem, IH.
Qed.

Lemma lower_lstrip (s : string) : lower (lstrip s) = lstrip (lower s).
Proof.
  induction s as [|c s IH]; simpl; [reflexivity|].
  rewrite isspace_lower_char.
  destruct (isspace c); [exact IH | reflexivity].
Qed.

Lemma lower_rstrip (s : string) : lower (rstrip s) = rstrip (lower s).
Proof.
  induction s as [|c s IH]; simpl; [reflexivity|].
  rewrite <- IH, isspace_lower_char.
  destruct (rstrip s) as [|d r]; simpl.
  - destruct (isspace c); reflexivity.
  - reflexivity.
Qed.

Lemma lower_strip (s : string) : lower (strip s) = strip (lower s).
Proof. unfold strip. now rewrite lower_rstrip, lower_lstrip. Qed.

(** What [lstrip] leaves does not start with a space. *)
Lemma lstrip_head (s : string) :
  lstrip s = EmptyString \/
  exists c r, lstrip s = String c r /\ isspace c = false.
Proof.
  induction s as [|c s IH]; simpl; [now left|].
  destruct (isspace c) eqn:Hc; [exact IH|].
  right. now exists c, s.
Qed.

Lemma rstrip_idem (s : string) : rstrip (rstrip s) = rstrip s.
Proof.
  induction s as [|c s IH]; simpl; [reflexivity|].
  destruct (rstrip s) as [|d r] eqn:Hr.
  - destruct (isspace c) eqn:Hc; simpl; [reflexivity|].
    now rewrite Hc.
  - change (rstrip (String c (String d r))) with
      (match rstrip (String d r) with
       | EmptyString => if isspace c then EmptyString else String c EmptyString
       | r0 => String c r0
       end).
    now rewrite IH.
Qed.

Lemma strip_idem (s : string) : strip (strip s) = strip s.
Proof.
  unfold strip.
  assert (H : lstrip (rstrip (lstrip s)) = rstrip (lstrip s)).
  { destruct (lstrip_head s) as [E | (c & r & E & Hc)]; rewrite E.
    - reflexivity.
    - simpl. destruct (rstrip r); repeat (simpl; rewrite ?Hc); reflexivity. }
  rewrite H. apply rstrip_idem.
Qed.

Lemma lower_strip_idem (s : string) :
  lower (strip (lower (strip s))) = lower (strip s).
Proof. now rewrite <- lower_strip, lower_idem, strip_idem. Qed.

End PyStrFacts.

(** ** Dictionaries *)

Section DictFacts.

Context {V : Type}.
Implicit Types (d : dict V) (k : string) (v : V).

Lemma dict_get_Some_In d k v : dict_get d k = Some v -> In (k, v) d.
Proof.
  induction d as [|[k' v'] d IH]; simpl; [discriminate|].
  destruct (String.eqb k' k) eqn:Ek.
  - apply String.eqb_eq in Ek. intros [= ->]. subst. now left.
  - intros H. right. now apply IH.
Qed.

Lemma dict_get_None d k : dict_get d k = None <-> ~ In k (keys d).
Proof.
  induction d as [|[k' v'] d IH]; simpl; [tauto|].
  destruct (String.eqb k' k) eqn:Ek.
  - apply String.eqb_eq in Ek. split; [discriminate | tauto].
  - apply String.eqb_neq in Ek. rewrite IH. tauto.
Qed.

Lemma dict_get_In d k : In k (keys d) <-> exists v, dict_get d k = Some v.
Proof.
  destruct (dict_get d k) as [v|] eqn:G.
  - split; [now exists v|]. intros _.
    apply dict_get_Some_In in G. now apply (in_map fst) in G.
  - apply dict_get_None in G. split; [tauto|]. now intros [v [=]].
Qed.

Lemma dict_mem_In d k : dict_mem d k = true <-> In k (keys d).
Proof.
  unfold dict_mem. rewrite dict_get_In.
  destruct (dict_get d k) as [v|]; split; try discriminate; eauto.
  now intros [v [=]].
Qed.

Lemma dict_get_set_same d k v : dict_get (dict_set d k v) k = Some v.
Proof.
  induction d as [|[k' v'] d IH]; simpl.
  - now rewrite String.eqb_refl.
  - destruct (String.eqb k' k) eqn:Ek; simpl.
    + now rewrite String.eqb_refl.
    + now rewrite Ek.
Qed.

Lemma dict_get_set_other d k k' v :
  k <> k' -> dict_get (dict_set d k v) k' = dict_get d k'.
Proof.
  intros Hne. induction d as [|[k0 v0] d IH]; simpl.
  - apply String.eqb_neq in Hne. now rewrite Hne.
  - destruct (String.eqb k0 k) eqn:Ek; simpl.
    + apply String.eqb_eq in Ek. subst k0.
      apply String.eqb_neq in Hne. now rewrite Hne.
    + now rewrite IH.
Qed.

Lemma dict_set_set d k v w : dict_set (dict_set d k v) k w = dict_set d k w.
Proof.
  induction d as [|[k' v'] d IH]; simpl.
  - now rewrite String.eqb_refl.
  - destruct (String.eqb k' k) eqn:Ek; simpl.
    + now rewrite String.eqb_refl.
    + now rewrite Ek, IH.
Qed.

Lemma dict_set_same d k v : dict_get d k = Some v -> dict_set d k v = d.
Proof.
  induction d as [|[k' v'] d IH]; simpl; [discriminate|].
  destruct (String.eqb k' k) eqn:Ek.
  - apply String.eqb_eq in Ek. now intros [= ->]; subst.
  - intros H. now rewrite IH.
Qed.

Lemma keys_set d k v : keys (dict_set d k v) = add_key (keys d) k.
Proof.
  induction d as [|[k' v'] d IH]; simpl; [reflexivity|].
  destruct (String.eqb k' k); simpl; [reflexivity|].
  now rewrite <- IH.
Qed.

Lemma add_key_In l k : In k l -> add_key l k = l.
Proof.
  induction l as [|k' l IH]; simpl; [tauto|].
  destruct (String.eqb k' k) eqn:Ek.
  - apply String.eqb_eq in Ek. now subst.
  - apply String.eqb_neq in Ek. intros [H|H]; [congruence|]. now rewrite IH.
Qed.

Lemma add_key_not_In l k : ~ In k l -> add_key l k = (l ++ [k])%list.
Proof.
  induction l as [|k' l IH]; simpl; [reflexivity|].
  destruct (String.eqb k' k) eqn:Ek.
  - apply String.eqb_eq in Ek. tauto.
  - intros H. rewrite IH; tauto.
Qed.

Lemma add_key_cases l k :
  (In k l /\ add_key l k = l) \/ (~ In k l /\ add_key l k = (l ++ [k])%list).
Proof.
  destruct (in_dec string_dec k l) as [H|H].
  - left. split; [assumption | now apply add_key_In].
  - right. split; [assumption | now apply add_key_not_In].
Qed.

Lemma In_add_key l k x : In x (add_key l k) <-> In x l \/ x = k.
Proof.
  destruct (add_key_cases l k) as [[H ->] | [H ->]].
  - split; [tauto|]. intros [?| ->]; assumption.
  - rewrite in_app_iff. simpl. intuition congruence.
Qed.

Lemma NoDup_add_key l k : NoDup l -> NoDup (add_key l k).
Proof.
  intros Hl. destruct (add_key_cases l k) as [[H ->] | [H ->]]; [assumption|].
  apply NoDup_app; [assumption | repeat constructor; simpl; tauto |].
  intros x Hx [<-|[]]. tauto.
Qed.

Lemma keys_set_present d k v : In k (keys d) -> keys (dict_set d k v) = keys d.
Proof. intros H. rewrite keys_set. now apply add_key_In. Qed.

Lemma uniq_snoc l k : uniq (l ++ [k]) = add_key (uniq l) k.
Proof. unfold uniq. now rewrite fold_left_app. Qed.

Lemma In_uniq l x : In x (uniq l) <-> In x l.
Proof.
  induction l as [|k l IH] using rev_ind; [reflexivity|].
  rewrite uniq_snoc, In_add_key, in_app_iff, IH. simpl. intuition congruence.
Qed.

Lemma NoDup_uniq l : NoDup (uniq l).
Proof.
  induction l as [|k l IH] using rev_ind; [constructor|].
  rewrite uniq_snoc. now apply NoDup_add_key.
Qed.

Lemma uniq_map_uniq (g : string -> string) l :
  uniq (map g (uniq l)) = uniq (map g l).
Proof.
  induction l as [|k l IH] using rev_ind; [reflexivity|].
  rewrite uniq_snoc, map_app. simpl. rewrite uniq_snoc.
  destruct (add_key_cases (uniq l) k) as [[H ->] | [H ->]].
  - rewrite IH. symmetry. apply add_key_In.
    apply In_uniq, in_map. now apply In_uniq.
  - rewrite map_app. simpl. now rewrite uniq_snoc, IH.
Qed.

End DictFacts.

(** ** Renaming *)

Section RenameFacts.

Context {E : Engine}.
Implicit Types (ddf b : DataFrame) (s : Series) (col k : string).

Lemma rename_fold ddf mapper : rename ddf mapper = fold_left (step (mapped mapper)) ddf [].
Proof. reflexivity. Qed.

Lemma fold_step_ext (g g' : string -> string) ddf acc :
  (forall k, In k (keys ddf) -> g k = g' k) ->
  fold_left (step g) ddf acc = fold_left (step g') ddf acc.
Proof.
  revert acc. induction ddf as [|[k s] ddf IH]; intros acc H; simpl; [reflexivity|].
  unfold step at 2 4. simpl. rewrite (H k) by now left.
  apply IH. intros k' Hk'. apply H. now right.
Qed.

Lemma keys_fold_step (g : string -> string) ddf acc :
  keys (fold_left (step g) ddf acc) = fold_left add_key (map g (keys ddf)) (keys acc).
Proof.
  revert acc. induction ddf as [|[k s] ddf IH]; intros acc; simpl; [reflexivity|].
  rewrite IH. unfold step. simpl. now rewrite keys_set.
Qed.

Lemma dict_set_fresh ddf k s :
  ~ In k (keys ddf) -> dict_set ddf k s = (ddf ++ [(k, s)])%list.
Proof.
  induction ddf as [|[k' s'] ddf IH]; simpl; [reflexivity|].
  intros H. destruct (String.eqb k' k) eqn:Ek.
  - apply String.eqb_eq in Ek. tauto.
  - rewrite IH; tauto.
Qed.

Lemma fold_step_injective (g : string -> string) ddf acc :
  NoDup (map g (keys ddf)) ->
  (forall k, In k (keys acc) -> ~ In k (map g (keys ddf))) ->
  fold_left (step g) ddf acc
  = (acc ++ map (fun kv => (g (fst kv), snd kv)) ddf)%list.
Proof.
  revert acc. induction ddf as [|[k s] ddf IH]; intros acc Hnd Hdis; simpl.
  - now rewrite app_nil_r.
  - simpl in Hnd. inversion Hnd as [|? ? Hk Hnd']; subst.
    unfold step at 2. simpl.
    rewrite dict_set_fresh.
    2:{ intros Hin. apply (Hdis _ Hin). now left. }
    rewrite IH; [now rewrite <- app_assoc | assumption |].
    intros k'. unfold keys. rewrite map_app, in_app_iff. simpl.
    intros [Hin | [<- | []]].
    + intros Hin'. apply (Hdis _ Hin). now right.
    + assumption.
Qed.

Lemma columns_rename ddf mapper :
  columns (rename ddf mapper) = uniq (map (mapped mapper) (columns ddf)).
Proof. unfold rename. apply (keys_fold_step (mapped mapper)). Qed.

Lemma mapped_comprehension (f : string -> string) (l : list string) k :
  In k l -> mapped (map (fun col => (col, f col)) l) k = f k.
Proof.
  unfold mapped. induction l as [|c l IH]; simpl; [tauto|].
  destruct (String.eqb c k) eqn:Ec.
  - apply String.eqb_eq in Ec. now subst.
  - apply String.eqb_neq in Ec. intros [H|H]; [congruence | now apply IH].
Qed.

(** The first rename gives every column its normal name. *)
Lemma rename_tmp ddf :
  rename ddf (map (fun col => (col, PyStr.lower (PyStr.strip col))) (columns ddf))
  = fold_left (step normal) ddf [].
Proof.
  rewrite rename_fold. apply fold_step_ext.
  intros k Hk. now apply (mapped_comprehension normal).
Qed.

(** The names after both renames depend on the canonical names only. *)
Lemma columns_renamed b :
  columns (renamed b) = uniq (map canonical (columns b)).
Proof.
  unfold renamed. rewrite columns_rename, rename_tmp.
  unfold columns at 1. rewrite (keys_fold_step normal).
  change (fold_left add_key (map normal (keys b)) (keys []))
    with (uniq (map normal (keys b))).
  rewrite uniq_map_uniq, map_map. reflexivity.
Qed.

Lemma NoDup_columns_renamed b : NoDup (columns (renamed b)).
Proof. rewrite columns_renamed. apply NoDup_uniq. Qed.

Lemma In_columns_renamed b k :
  In k (columns (renamed b)) <-> In k (map canonical (columns b)).
Proof. rewrite columns_renamed. apply In_uniq. Qed.

(** Without collisions the renames only relabel the columns. *)
Lemma renamed_collision_free b :
  collision_free b ->
  renamed b = map (fun kv => (canonical (fst kv), snd kv)) b.
Proof.
  unfold collision_free, canonical, columns. intros Hnd.
  rewrite <- (map_map normal (mapped aliases)) in Hnd.
  unfold renamed. rewrite rename_tmp, rename_fold.
  rewrite (fold_step_injective normal); simpl.
  2:{ now apply NoDup_map_inv in Hnd. }
  2:{ tauto. }
  rewrite (fold_step_injective (mapped aliases)); simpl.
  - rewrite map_map. reflexivity.
  - unfold keys in *. rewrite !map_map in Hnd. rewrite !map_map. exact Hnd.
  - tauto.
Qed.

(** Without collisions a raw column is found under its canonical name. *)
Lemma renamed_get_raw b k s :
  collision_free b -> In (k, s) b -> dict_get (renamed b) (canonical k) = Some s.
Proof.
  intros Hcf Hin. rewrite (renamed_collision_free b Hcf).
  unfold collision_free, columns, keys in Hcf.
  induction b as [|[k' s'] b IH]; simpl in *; [tauto|].
  inversion Hcf as [|? ? Hk Hnd]; subst.
  destruct Hin as [[= -> ->]|Hin].
  - now rewrite String.eqb_refl.
  - destruct (String.eqb (canonical k') (canonical k)) eqn:Ek; [|now apply IH].
    apply String.eqb_eq in Ek. exfalso. apply Hk. rewrite Ek.
    apply in_map. now apply (in_map fst) in Hin.
Qed.

End RenameFacts.

(** ** Series *)

Section SeriesFacts.

Context {E : Engine}.
Implicit Types (s : Series) (l : list (option scalar)).

Lemma astype_dtype s tgt s' : astype s tgt = Ok s' -> dtype s' = tgt.
Proof.
  unfold astype. destruct (cast_cells _ _ _); [|discriminate].
  now intros [= <-].
Qed.

Lemma astype_raises s tgt e : astype s tgt = Raise e -> e = ValueError.
Proof.
  unfold astype. destruct (cast_cells _ _ _); [discriminate|].
  now intros [= <-].
Qed.

Lemma fill_no_nulls v l : Forall (fun c => c <> None) (fill v l).
Proof.
  unfold fill. apply Forall_forall. intros c Hc.
  apply in_map_iff in Hc. destruct Hc as [[w|] [<- _]]; discriminate.
Qed.

Lemma fill_id v l : Forall (fun c => c <> None) l -> fill v l = l.
Proof.
  induction 1 as [|[w|] l Hc _ IH]; simpl; [reflexivity| |congruence].
  now rewrite IH.
Qed.

Lemma cast_cells_no_nulls src tgt l r :
  cast_cells src tgt l = Some r ->
  Forall (fun c => c <> None) l -> Forall (fun c => c <> None) r.
Proof.
  revert r. induction l as [|[v|] l IH]; simpl; intros r.
  - intros [= <-]. constructor.
  - destruct (cast src tgt v); [|discriminate].
    destruct (cast_cells src tgt l) as [r'|]; [|discriminate].
    intros [= <-] H. inversion H; subst.
    constructor; [discriminate | now apply IH].
  - intros _ H. inversion H; congruence.
Qed.

(** One cell that the engine refuses makes [astype] raise. *)
Lemma cast_cells_refused src tgt l v :
  In (Some v) l -> cast src tgt v = None -> cast_cells src tgt l = None.
Proof.
  induction l as [|[w|] l IH]; simpl; [tauto| |].
  - intros [[= ->]|H] Hv.
    + now rewrite Hv.
    + rewrite (IH H Hv). now destruct (cast src tgt w).
  - intros [[=]|H] Hv. now rewrite (IH H Hv).
Qed.

Lemma In_fill v w l : In (Some w) l -> In (Some w) (fill v l).
Proof.
  intros H. unfold fill. apply in_map_iff. now exists (Some w).
Qed.

Lemma cast_cells_same `{!EngineLaws E} d l : cast_cells d d l = Some l.
Proof.
  induction l as [|[v|] l IH]; simpl; [reflexivity| |]; rewrite IH; [|reflexivity].
  now rewrite cast_same.
Qed.

Lemma astype_same `{!EngineLaws E} s : astype s (dtype s) = Ok s.
Proof. unfold astype. rewrite cast_cells_same. now destruct s. Qed.

Lemma fillna_id s v : no_nulls s -> fillna s v = s.
Proof. unfold fillna, no_nulls. intros H. rewrite fill_id by assumption. now destruct s. Qed.

(** A text series makes the loop raise at [.str.fillna]. *)
Lemma coerce_text s : dtype s = "object" -> coerce s = Raise AttributeError.
Proof. intros H. unfold coerce. now rewrite H. Qed.

Lemma coerce_not_text s s' : coerce s = Ok s' -> String.eqb (dtype s) "object" = false.
Proof.
  unfold coerce. destruct (String.eqb (dtype s) "object"); [discriminate | reflexivity].
Qed.

Lemma coerce_dtype s s' : coerce s = Ok s' -> dtype s' = coerced_dtype (dtype s).
Proof.
  unfold coerce, coerced_dtype.
  destruct (String.eqb (dtype s) "object").
  - discriminate.
  - destruct (PyStr.contains "int" (dtype s)).
    + destruct (astype s "int32") as [s1|] eqn:H1; simpl; [|discriminate].
      apply astype_dtype in H1. rewrite H1. simpl. now intros [= <-].
    + simpl. destruct (PyStr.contains "float" (dtype s)).
      * destruct (astype s "float32") as [s1|] eqn:H1; simpl; [|discriminate].
        apply astype_dtype in H1. now intros [= <-].
      * simpl. now intros [= <-].
Qed.

Lemma coerce_no_nulls s s' : coerce s = Ok s' -> no_nulls s'.
Proof.
  unfold coerce, no_nulls.
  destruct (String.eqb (dtype s) "object").
  - discriminate.
  - destruct (if PyStr.contains "int" (dtype s) then _ else _) as [s1|]; simpl; [|discriminate].
    destruct (if PyStr.contains "float" (dtype s1) then _ else _) as [s2|]; simpl; [|discriminate].
    intros [= <-]. apply fill_no_nulls.
Qed.

(** The loop raises nothing but what [astype] and [.str.fillna] raise. *)
Lemma coerce_raises s e :
  coerce s = Raise e ->
  (dtype s = "object" /\ e = AttributeError) \/ (dtype s <> "object" /\ e = ValueError).
Proof.
  unfold coerce.
  destruct (String.eqb (dtype s) "object") eqn:Ho.
  - apply String.eqb_eq in Ho. intros [= <-]. now left.
  - apply String.eqb_neq in Ho. intros H. right. split; [assumption|].
    revert H. destruct (PyStr.contains "int" (dtype s)).
    + destruct (astype s "int32") as [s1|] eqn:H1; simpl.
      * destruct (PyStr.contains "float" (dtype s1)); simpl; [|discriminate].
        destruct (astype s1 "float32") eqn:H2; simpl; [discriminate|].
        intros [= <-]. now apply astype_raises in H2.
      * intros [= <-]. now apply astype_raises in H1.
    + simpl. destruct (PyStr.contains "float" (dtype s)); simpl; [|discriminate].
      destruct (astype s "float32") eqn:H2; simpl; [discriminate|].
      intros [= <-]. now apply astype_raises in H2.
Qed.

Lemma coerced_dtype_cases d :
  coerced_dtype d = "float32" \/ coerced_dtype d = "int32" \/
  (coerced_dtype d = d /\
   PyStr.contains "int" d = false /\ PyStr.contains "float" d = false).
Proof.
  unfold coerced_dtype.
  destruct (PyStr.contains "int" d); [now right; left|].
  destruct (PyStr.contains "float" d); [now left | now right; right].
Qed.

(** A series without nulls whose dtype the loop would not change goes
    through the loop as it is. *)
Lemma coerce_fixed `{!EngineLaws E} s :
  no_nulls s ->
  String.eqb (dtype s) "object" = false ->
  (PyStr.contains "int" (dtype s) = true -> dtype s = "int32") ->
  (PyStr.contains "float" (dtype s) = true -> dtype s = "float32") ->
  coerce s = Ok s.
Proof.
  intros Hn Ho Hi Hf. unfold coerce. rewrite Ho.
  assert (H1 : (if PyStr.contains "int" (dtype s) then astype s "int32" else Ok s) = Ok s).
  { destruct (PyStr.contains "int" (dtype s)); [|reflexivity].
    rewrite <- (astype_same s). now rewrite Hi. }
  rewrite H1. cbn [bind].
  assert (H2 : (if PyStr.contains "float" (dtype s) then astype s "float32" else Ok s) = Ok s).
  { destruct (PyStr.contains "float" (dtype s)); [|reflexivity].
    rewrite <- (astype_same s). now rewrite Hf. }
  rewrite H2. cbn [bind]. now rewrite fillna_id.
Qed.

(** A series that went through the loop once goes through unchanged. *)
Lemma coerce_idem `{!EngineLaws E} s s' : coerce s = Ok s' -> coerce s' = Ok s'.
Proof.
  intros H. pose proof (coerce_dtype _ _ H) as Hd.
  pose proof (coerce_no_nulls _ _ H) as Hn.
  pose proof (coerce_not_text _ _ H) as Ho. clear H.
  apply coerce_fixed; [assumption | | |];
    destruct (coerced_dtype_cases (dtype s)) as [Hc | [Hc | (Hc & Hi & Hf)]];
    rewrite Hc in Hd; rewrite Hd; try reflexivity; try discriminate; congruence.
Qed.

End SeriesFacts.

(** ** The loop *)

Section LoopFacts.

Context {E : Engine}.
Implicit Types (ddf b pre suf : DataFrame) (s : Series) (col k : string)
  (mh : dict string).

Lemma getitem_setitem ddf col s : getitem (setitem ddf col s) col = Ok s.
Proof. unfold getitem, setitem. now rewrite dict_get_set_same. Qed.

Lemma clean_body_drop mh ddf col :
  dict_mem mh col = false -> clean_body mh ddf col = Ok (drop ddf col).
Proof. intros H. unfold clean_body. now rewrite H. Qed.

(** A turn on a kept column replaces its series by the coerced one. *)
Lemma clean_body_keep mh ddf col s :
  dict_mem mh col = true -> dict_get ddf col = Some s ->
  clean_body mh ddf col = (s' <- coerce s ;; Ok (setitem ddf col s')).
Proof.
  intros Hm Hg. unfold clean_body, coerce. rewrite Hm. cbn [negb].
  assert (G : getitem ddf col = Ok s) by (unfold getitem; now rewrite Hg).
  rewrite !G. cbn [bind].
  destruct (String.eqb (dtype s) "object").
  - reflexivity.
  - destruct (PyStr.contains "int" (dtype s)); cbn [bind].
    + destruct (astype s "int32") as [s1|]; cbn [bind]; [|reflexivity].
      rewrite !getitem_setitem. cbn [bind].
      destruct (PyStr.contains "float" (dtype s1)); cbn [bind].
      * destruct (astype s1 "float32") as [s2|]; cbn [bind]; [|reflexivity].
        rewrite getitem_setitem. cbn [bind].
        unfold setitem. now rewrite !dict_set_set.
      * rewrite getitem_setitem. cbn [bind].
        unfold setitem. now rewrite dict_set_set.
    + rewrite !G. cbn [bind].
      destruct (PyStr.contains "float" (dtype s)); cbn [bind].
      * destruct (astype s "float32") as [s2|]; cbn [bind]; [|reflexivity].
        rewrite getitem_setitem. cbn [bind].
        unfold setitem. now rewrite dict_set_set.
      * rewrite G. reflexivity.
Qed.

Lemma dict_get_middle pre suf k s :
  ~ In k (keys pre) -> dict_get (pre ++ (k, s) :: suf)%list k = Some s.
Proof.
  induction pre as [|[k' s'] pre IH]; simpl.
  - now rewrite String.eqb_refl.
  - intros H. destruct (String.eqb k' k) eqn:Ek.
    + apply String.eqb_eq in Ek. tauto.
    + apply IH. tauto.
Qed.

Lemma dict_set_middle pre suf k s s' :
  ~ In k (keys pre) ->
  dict_set (pre ++ (k, s) :: suf)%list k s' = (pre ++ (k, s') :: suf)%list.
Proof.
  induction pre as [|[k' s0] pre IH]; simpl.
  - now rewrite String.eqb_refl.
  - intros H. destruct (String.eqb k' k) eqn:Ek.
    + apply String.eqb_eq in Ek. tauto.
    + rewrite IH; tauto.
Qed.

Lemma drop_absent ddf k : ~ In k (keys ddf) -> drop ddf k = ddf.
Proof.
  induction ddf as [|[k' s'] ddf IH]; simpl; [reflexivity|].
  intros H. destruct (String.eqb k' k) eqn:Ek; simpl.
  - apply String.eqb_eq in Ek. tauto.
  - rewrite IH; tauto.
Qed.

Lemma drop_middle pre suf k s :
  ~ In k (keys pre) -> ~ In k (keys suf) ->
  drop (pre ++ (k, s) :: suf)%list k = (pre ++ suf)%list.
Proof.
  intros Hp Hs. unfold drop. rewrite filter_app. simpl.
  rewrite String.eqb_refl. simpl.
  fold (drop pre k). fold (drop suf k).
  now rewrite !drop_absent.
Qed.

(** The loop over the columns still to visit, the visited ones in front. *)
Lemma clean_loop_from mh suf : forall pre,
  NoDup (keys (pre ++ suf)%list) ->
  clean_loop mh (keys suf) (pre ++ suf)%list
  = (r <- project mh suf ;; Ok (pre ++ r)%list).
Proof.
  induction suf as [|[k s] suf IH]; intros pre Hnd; simpl.
  - reflexivity.
  - assert (Hk : ~ In k (keys pre) /\ ~ In k (keys suf)).
    { unfold keys in *. rewrite map_app in Hnd. simpl in Hnd.
      apply NoDup_remove_2 in Hnd. rewrite in_app_iff in Hnd. tauto. }
    destruct Hk as [Hp Hs].
    destruct (dict_mem mh k) eqn:Hm.
    + rewrite (clean_body_keep mh _ k s Hm) by now apply dict_get_middle.
      destruct (coerce s) as [s'|e]; cbn [bind]; [|reflexivity].
      unfold setitem. rewrite dict_set_middle by assumption.
      change (pre ++ (k, s') :: suf)%list with (pre ++ [(k, s')] ++ suf)%list.
      rewrite app_assoc, IH.
      * destruct (project mh suf); cbn [bind]; [|reflexivity].
        now rewrite <- app_assoc.
      * unfold keys in *. rewrite <- app_assoc, map_app. rewrite map_app in Hnd.
        exact Hnd.
    + rewrite clean_body_drop by assumption. cbn [bind].
      rewrite drop_middle by assumption. apply IH.
      unfold keys in *. rewrite map_app in *. simpl in Hnd.
      now apply NoDup_remove_1 in Hnd.
Qed.

Lemma clean_loop_project mh ddf :
  NoDup (columns ddf) -> clean_loop mh (columns ddf) ddf = project mh ddf.
Proof.
  intros H.
  change (clean_loop mh (keys ddf) ([] ++ ddf)%list = project mh ddf).
  rewrite clean_loop_from by exact H.
  now destruct (project mh ddf).
Qed.

(** *** What [project] keeps *)

Lemma columns_project mh ddf out :
  project mh ddf = Ok out -> columns out = filter (dict_mem mh) (columns ddf).
Proof.
  revert out. induction ddf as [|[k s] ddf IH]; simpl; intros out.
  - now intros [= <-].
  - destruct (dict_mem mh k).
    + destruct (coerce s) as [s'|]; cbn [bind]; [|discriminate].
      destruct (project mh ddf) as [r|]; cbn [bind]; [|discriminate].
      intros [= <-]. simpl. f_equal. now apply IH.
    + apply IH.
Qed.

Lemma project_get mh ddf out k s :
  project mh ddf = Ok out -> dict_mem mh k = true -> dict_get ddf k = Some s ->
  exists s', coerce s = Ok s' /\ dict_get out k = Some s'.
Proof.
  revert out. induction ddf as [|[k' s0] ddf IH]; simpl; intros out; [discriminate|].
  intros Hp Hm. destruct (String.eqb k' k) eqn:Ek.
  - apply String.eqb_eq in Ek. subst k'. intros [= ->]. rewrite Hm in Hp.
    destruct (coerce s) as [s'|]; cbn [bind] in Hp; [|discriminate].
    destruct (project mh ddf) as [r|]; cbn [bind] in Hp; [|discriminate].
    injection Hp as <-. exists s'. simpl. now rewrite String.eqb_refl.
  - intros Hg. destruct (dict_mem mh k').
    + destruct (coerce s0) as [s0'|]; cbn [bind] in Hp; [|discriminate].
      destruct (project mh ddf) as [r|]; cbn [bind] in Hp; [|discriminate].
      injection Hp as <-. simpl. rewrite Ek. now apply IH.
    + now apply IH.
Qed.

Lemma project_In mh ddf out k s' :
  project mh ddf = Ok out -> In (k, s') out ->
  dict_mem mh k = true /\ exists s, In (k, s) ddf /\ coerce s = Ok s'.
Proof.
  revert out. induction ddf as [|[k' s0] ddf IH]; simpl; intros out.
  - intros [= <-] [].
  - destruct (dict_mem mh k') eqn:Hm.
    + destruct (coerce s0) as [s0'|] eqn:Hc; cbn [bind]; [|discriminate].
      destruct (project mh ddf) as [r|]; cbn [bind]; [|discriminate].
      intros [= <-] [[= -> ->]|Hin].
      * split; [assumption|]. exists s0. split; [now left | assumption].
      * destruct (IH r eq_refl Hin) as (? & s & ? & ?).
        split; [assumption|]. exists s. split; [now right | assumption].
    + intros Hp Hin. destruct (IH out Hp Hin) as (? & s & ? & ?).
      split; [assumption|]. exists s. split; [now right | assumption].
Qed.

Lemma project_raises mh ddf e :
  project mh ddf = Raise e -> e = ValueError \/ e = AttributeError.
Proof.
  induction ddf as [|[k s] ddf IH]; simpl; [discriminate|].
  destruct (dict_mem mh k); [|exact IH].
  destruct (coerce s) as [s'|e'] eqn:Hc; cbn [bind].
  - destruct (project mh ddf) as [r|e']; cbn [bind]; [discriminate|].
    intros [= <-]. now apply IH.
  - intros [= <-]. apply coerce_raises in Hc. tauto.
Qed.

(** The loop raises [AttributeError] for a kept text column only. *)
Lemma project_attribute mh ddf :
  project mh ddf = Raise AttributeError ->
  exists k s, In (k, s) ddf /\ dict_mem mh k = true /\ dtype s = "object".
Proof.
  induction ddf as [|[k s] ddf IH]; simpl; [discriminate|].
  destruct (dict_mem mh k) eqn:Hm.
  - destruct (coerce s) as [s'|e'] eqn:Hc; cbn [bind].
    + destruct (project mh ddf) as [r|e']; cbn [bind]; [discriminate|].
      intros [= ->]. destruct (IH eq_refl) as (k1 & s1 & H1 & H2 & H3).
      exists k1, s1. tauto.
    + intros [= ->]. apply coerce_raises in Hc.
      destruct Hc as [[Ho _] | [_ [=]]]. exists k, s. tauto.
  - intros H. destruct (IH H) as (k1 & s1 & H1 & H2 & H3). exists k1, s1. tauto.
Qed.

(** One kept column that cannot be coerced makes the loop raise. *)
Lemma project_refused mh ddf k s e :
  In (k, s) ddf -> dict_mem mh k = true -> coerce s = Raise e ->
  exists e', project mh ddf = Raise e'.
Proof.
  induction ddf as [|[k' s0] ddf IH]; simpl; [tauto|].
  intros [[= -> ->]|Hin] Hm Hc.
  - rewrite Hm, Hc. cbn [bind]. now exists e.
  - destruct (IH Hin Hm Hc) as [e' IH']. destruct (dict_mem mh k'); [|now exists e'].
    destruct (coerce s0) as [s0'|e0] eqn:Hc0; cbn [bind].
    + rewrite IH'. now exists e'.
    + now exists e0.
Qed.

(** A kept text column makes the loop raise at [.str.fillna], unless a
    cast of a column that is not text is refused before. *)
Lemma project_text mh ddf k s :
  In (k, s) ddf -> dict_mem mh k = true -> dtype s = "object" ->
  (forall k' s', In (k', s') ddf -> dict_mem mh k' = true ->
                 dtype s' <> "object" -> exists r, coerce s' = Ok r) ->
  project mh ddf = Raise AttributeError.
Proof.
  induction ddf as [|[k' s0] ddf IH]; simpl; [tauto|].
  intros Hin Hm Ho Hall.
  assert (Hrest : forall k1 s1, In (k1, s1) ddf -> dict_mem mh k1 = true ->
                                dtype s1 <> "object" -> exists r, coerce s1 = Ok r).
  { intros k1 s1 H1. apply Hall. now right. }
  destruct (dict_mem mh k') eqn:Hm'.
  - destruct (string_dec (dtype s0) "object") as [H0|H0].
    + now rewrite (coerce_text s0 H0).
    + destruct (Hall k' s0 (or_introl eq_refl) Hm' H0) as [r Hr]. rewrite Hr. cbn [bind].
      destruct Hin as [[= -> ->]|Hin]; [contradiction|].
      now rewrite (IH Hin Hm Ho Hrest).
  - destruct Hin as [[= -> ->]|Hin]; [congruence|].
    exact (IH Hin Hm Ho Hrest).
Qed.

Lemma project_fixed mh ddf :
  Forall (fun kv => dict_mem mh (fst kv) = true /\ coerce (snd kv) = Ok (snd kv)) ddf ->
  project mh ddf = Ok ddf.
Proof.
  induction 1 as [|[k s] ddf [Hm Hc] _ IH]; simpl in *; [reflexivity|].
  now rewrite Hm, Hc, IH.
Qed.

End LoopFacts.

(** ** The statements before the loop *)

Section HeadFacts.

Context {E : Engine}.
Implicit Types (ddf b f out : DataFrame) (s : Series) (col k : string)
  (mh : dict string).

Lemma clean_head_inv b f :
  clean_head b = Ok f ->
  exists s1 s1' s2 s2',
    dict_get (renamed b) "pickup_datetime" = Some s1 /\
    astype s1 "datetime64[ms]" = Ok s1' /\
    dict_get (renamed b) "dropoff_datetime" = Some s2 /\
    astype s2 "datetime64[ms]" = Ok s2' /\
    f = setitem (setitem (renamed b) "pickup_datetime" s1') "dropoff_datetime" s2'.
Proof.
  unfold clean_head, getitem, setitem.
  destruct (dict_get (renamed b) "pickup_datetime") as [s1|] eqn:G1; cbn [bind]; [|discriminate].
  destruct (astype s1 "datetime64[ms]") as [s1'|] eqn:A1; cbn [bind]; [|discriminate].
  rewrite dict_get_set_other by discriminate.
  destruct (dict_get (renamed b) "dropoff_datetime") as [s2|] eqn:G2; cbn [bind]; [|discriminate].
  destruct (astype s2 "datetime64[ms]") as [s2'|] eqn:A2; cbn [bind]; [|discriminate].
  intros [= <-]. now exists s1, s1', s2, s2'.
Qed.

Lemma columns_clean_head b f :
  clean_head b = Ok f -> columns f = columns (renamed b).
Proof.
  intros H. destruct (clean_head_inv _ _ H) as (s1 & s1' & s2 & s2' & G1 & _ & G2 & _ & ->).
  unfold columns, setitem.
  assert (H1 : keys (dict_set (renamed b) "pickup_datetime" s1') = keys (renamed b)).
  { apply keys_set_present. apply dict_get_In. eauto. }
  rewrite keys_set_present; [exact H1|].
  rewrite H1. apply dict_get_In. eauto.
Qed.

Lemma clean_head_other b f k :
  clean_head b = Ok f -> k <> "pickup_datetime" -> k <> "dropoff_datetime" ->
  dict_get f k = dict_get (renamed b) k.
Proof.
  intros H Hp Hd. destruct (clean_head_inv _ _ H) as (s1 & s1' & s2 & s2' & _ & _ & _ & _ & ->).
  unfold setitem. rewrite !dict_get_set_other; congruence.
Qed.

Lemma clean_head_timestamp b f k :
  clean_head b = Ok f -> k = "pickup_datetime" \/ k = "dropoff_datetime" ->
  exists s, dict_get f k = Some s /\ dtype s = "datetime64[ms]".
Proof.
  intros H Hk. destruct (clean_head_inv _ _ H) as (s1 & s1' & s2 & s2' & _ & A1 & _ & A2 & ->).
  apply astype_dtype in A1, A2. unfold setitem. destruct Hk as [-> | ->].
  - exists s1'. rewrite dict_get_set_other by discriminate.
    now rewrite dict_get_set_same.
  - exists s2'. now rewrite dict_get_set_same.
Qed.

(** How the statements before the loop end, by which timestamp columns
    the renamed frame has. *)
Lemma clean_head_no_pickup b :
  ~ In "pickup_datetime" (columns (renamed b)) ->
  clean_head b = Raise (KeyError "pickup_datetime").
Proof.
  intros H. apply dict_get_None in H. unfold clean_head, getitem. now rewrite H.
Qed.

Lemma clean_head_no_dropoff b :
  In "pickup_datetime" (columns (renamed b)) ->
  ~ In "dropoff_datetime" (columns (renamed b)) ->
  clean_head b = Raise (KeyError "dropoff_datetime") \/ clean_head b = Raise ValueError.
Proof.
  intros Hp Hd. apply dict_get_In in Hp. destruct Hp as [s1 G1].
  apply dict_get_None in Hd. unfold clean_head, getitem, setitem. rewrite G1. cbn [bind].
  destruct (astype s1 "datetime64[ms]") as [s1'|e] eqn:A1; cbn [bind].
  - rewrite dict_get_set_other by discriminate. rewrite Hd. now left.
  - apply astype_raises in A1. subst. now right.
Qed.

Lemma clean_head_raises b e :
  clean_head b = Raise e -> e = ValueError \/ exists k, e = KeyError k.
Proof.
  unfold clean_head, getitem.
  destruct (dict_get (renamed b) "pickup_datetime") as [s1|]; cbn [bind];
    [|intros [= <-]; eauto].
  destruct (astype s1 "datetime64[ms]") as [s1'|e1] eqn:A1; cbn [bind];
    [|intros [= <-]; apply astype_raises in A1; now left].
  destruct (dict_get _ "dropoff_datetime") as [s2|]; cbn [bind];
    [|intros [= <-]; eauto].
  destruct (astype s2 "datetime64[ms]") as [s2'|e2] eqn:A2; cbn [bind];
    [discriminate|intros [= <-]; apply astype_raises in A2; now left].
Qed.

Lemma clean_head_both b :
  In "pickup_datetime" (columns (renamed b)) ->
  In "dropoff_datetime" (columns (renamed b)) ->
  (exists f, clean_head b = Ok f) \/ clean_head b = Raise ValueError.
Proof.
  intros Hp Hd. apply dict_get_In in Hp, Hd. destruct Hp as [s1 G1], Hd as [s2 G2].
  unfold clean_head, getitem, setitem. rewrite G1. cbn [bind].
  destruct (astype s1 "datetime64[ms]") as [s1'|e] eqn:A1; cbn [bind].
  - rewrite dict_get_set_other by discriminate. rewrite G2. cbn [bind].
    destruct (astype s2 "datetime64[ms]") as [s2'|e] eqn:A2; cbn [bind].
    + left. eauto.
    + apply astype_raises in A2. subst. now right.
  - apply astype_raises in A1. subst. now right.
Qed.

(** [clean] is the statements before the loop followed by [project]. *)
Lemma clean_project b mh : clean b mh = (f <- clean_head b ;; project mh f).
Proof.
  unfold clean. destruct (clean_head b) as [f|e] eqn:H; cbn [bind]; [|reflexivity].
  apply clean_loop_project.
  rewrite (columns_clean_head _ _ H). apply NoDup_columns_renamed.
Qed.

Lemma clean_inv b mh out :
  clean b mh = Ok out -> exists f, clean_head b = Ok f /\ project mh f = Ok out.
Proof.
  rewrite clean_project. destruct (clean_head b) as [f|]; cbn [bind]; [|discriminate].
  eauto.
Qed.

(** The names of the output, in order. *)
Lemma columns_clean b mh out :
  clean b mh = Ok out ->
  columns out = filter (dict_mem mh) (uniq (map canonical (columns b))).
Proof.
  intros H. destruct (clean_inv _ _ _ H) as (f & Hf & Hp).
  rewrite (columns_project _ _ _ Hp), (columns_clean_head _ _ Hf).
  now rewrite columns_renamed.
Qed.

Lemma In_columns_clean b mh out k :
  clean b mh = Ok out ->
  In k (columns out) <-> In k (keys mh) /\ In k (map canonical (columns b)).
Proof.
  intros H. rewrite (columns_clean _ _ _ H), filter_In, In_uniq, dict_mem_In. tauto.
Qed.

Lemma NoDup_columns_clean b mh out : clean b mh = Ok out -> NoDup (columns out).
Proof.
  intros H. rewrite (columns_clean _ _ _ H). apply NoDup_filter, NoDup_uniq.
Qed.

(** With both timestamp columns there, [clean] raises no [KeyError]. *)
Lemma clean_no_KeyError b mh k :
  In "pickup_datetime" (columns (renamed b)) ->
  In "dropoff_datetime" (columns (renamed b)) ->
  clean b mh <> Raise (KeyError k).
Proof.
  intros Hp Hd. rewrite clean_project.
  destruct (clean_head_both b Hp Hd) as [[f ->] | ->]; cbn [bind]; [|discriminate].
  destruct (project mh f) as [out|e] eqn:P; [discriminate|].
  apply project_raises in P. destruct P; subst; discriminate.
Qed.

(** What [clean] raises. *)
Lemma clean_raises b mh e :
  clean b mh = Raise e ->
  e = ValueError \/ e = AttributeError \/ exists k, e = KeyError k.
Proof.
  rewrite clean_project. destruct (clean_head b) as [f|e'] eqn:Hf; cbn [bind].
  - intros P. apply project_raises in P. tauto.
  - intros [= ->]. apply clean_head_raises in Hf. tauto.
Qed.

End HeadFacts.

(** ** The store *)

Section StoreFacts.

Context {E : Engine}.
Implicit Types (h : store) (r : ref) (f g : DataFrame) (s : Series)
  (col : string) (mh : dict string).

Lemma extends_refl h : extends h h.
Proof. exists []. now rewrite app_nil_r. Qed.

Lemma extends_alloc h0 h f : extends h0 h -> extends h0 (h ++ [f])%list.
Proof. intros [ext ->]. exists (ext ++ [f])%list. now rewrite app_assoc. Qed.

Lemma length_update h r f : List.length (update h r f) = List.length h.
Proof.
  revert r. induction h as [|g h IH]; intros [|r]; simpl; auto.
Qed.

Lemma nth_update h r f : (r < List.length h)%nat -> nth r (update h r f) [] = f.
Proof.
  revert r. induction h as [|g h IH]; intros [|r]; simpl; try lia; auto.
  intros H. apply IH. lia.
Qed.

Lemma update_update h r f g : update (update h r f) r g = update h r g.
Proof.
  revert r. induction h as [|g0 h IH]; intros [|r]; simpl; auto.
  now rewrite IH.
Qed.

Lemma update_nth h r : update h r (nth r h []) = h.
Proof.
  revert r. induction h as [|g h IH]; intros [|r]; simpl; auto.
  now rewrite IH.
Qed.

Lemma update_app h0 ext r f :
  (List.length h0 <= r)%nat ->
  update (h0 ++ ext)%list r f = (h0 ++ update ext (r - List.length h0) f)%list.
Proof.
  revert r. induction h0 as [|g h0 IH]; intros r Hr; simpl in *.
  - now rewrite Nat.sub_0_r.
  - destruct r as [|r]; [lia|]. simpl. rewrite IH by lia. reflexivity.
Qed.

Lemma extends_update h0 h r f :
  extends h0 h -> (List.length h0 <= r)%nat -> extends h0 (update h r f).
Proof.
  intros [ext ->] Hr. rewrite update_app by assumption. eexists. reflexivity.
Qed.

Lemma extends_firstn h0 h : extends h0 h -> firstn (List.length h0) h = h0.
Proof.
  intros [ext ->]. rewrite firstn_app, Nat.sub_diag, firstn_all. simpl.
  now rewrite app_nil_r.
Qed.

Lemma extends_nth h0 h r :
  extends h0 h -> (r < List.length h0)%nat -> nth r h [] = nth r h0 [].
Proof. intros [ext ->] Hr. now apply app_nth1. Qed.

(** *** One turn of the loop on the frame [r] refers to *)

(** Runs the store operations of a goal as far as they are determined,
    given what [ddf[col]] is at the start and that the reference is live. *)
Ltac run_on G Hr :=
  cbv beta iota; cbn [bind];
  repeat (first [ rewrite G
                | rewrite nth_update by exact Hr
                | rewrite getitem_setitem
                | rewrite update_update ];
          cbv beta iota; cbn [bind]).

Lemma clean_body_m_drop mh r col h :
  dict_mem mh col = false ->
  clean_body_m mh r col h
  = ((h ++ [drop (nth r h []) col])%list, Ok (List.length h)).
Proof. intros H. unfold clean_body_m. now rewrite H. Qed.

Lemma clean_body_m_absent mh r col h :
  dict_mem mh col = true -> dict_get (nth r h []) col = None ->
  clean_body_m mh r col h = (h, Raise (KeyError col)).
Proof.
  intros Hm Hg. unfold clean_body_m, getitem_m, mbind, raise_of, deref, getitem.
  rewrite Hm. cbn [negb]. cbv beta iota. now rewrite Hg.
Qed.

(** A turn on a kept column updates the frame in place, and only it. *)
Lemma clean_body_m_keep mh r col h s :
  (r < List.length h)%nat ->
  dict_mem mh col = true -> dict_get (nth r h []) col = Some s ->
  exists g,
    fst (clean_body_m mh r col h) = update h r g /\
    match coerce s with
    | Ok s' => g = setitem (nth r h []) col s' /\ snd (clean_body_m mh r col h) = Ok r
    | Raise e => snd (clean_body_m mh r col h) = Raise e
    end.
Proof.
  intros Hr Hm Hg.
  assert (G : getitem (nth r h []) col = Ok s) by (unfold getitem; now rewrite Hg).
  unfold clean_body_m, coerce, getitem_m, setitem_m, mbind, raise_of, ret, deref, assign.
  rewrite Hm. cbn [negb]. run_on G Hr.
  destruct (String.eqb (dtype s) "object"); run_on G Hr.
  - unfold str_fillna. run_on G Hr.
    exists (nth r h []). rewrite update_nth. split; reflexivity.
  - destruct (PyStr.contains "int" (dtype s)); run_on G Hr.
    + destruct (astype s "int32") as [s1|e]; run_on G Hr.
      * destruct (PyStr.contains "float" (dtype s1)); run_on G Hr.
        -- destruct (astype s1 "float32") as [s2|e]; run_on G Hr.
           ++ unfold setitem. rewrite !dict_set_set.
              eexists. split; [reflexivity|]. split; reflexivity.
           ++ eexists. split; reflexivity.
        -- unfold setitem. rewrite dict_set_set.
           eexists. split; [reflexivity|]. split; reflexivity.
      * exists (nth r h []). rewrite update_nth. split; reflexivity.
    + destruct (PyStr.contains "float" (dtype s)); run_on G Hr.
      * destruct (astype s "float32") as [s2|e]; run_on G Hr.
        -- unfold setitem. rewrite dict_set_set.
           eexists. split; [reflexivity|]. split; reflexivity.
        -- exists (nth r h []). rewrite update_nth. split; reflexivity.
      * eexists. split; [reflexivity|]. split; reflexivity.
Qed.

Lemma clean_body_m_spec mh r col h h0 :
  extends h0 h -> (List.length h0 <= r < List.length h)%nat ->
  stands_for h0 (clean_body_m mh r col h) (clean_body mh (nth r h []) col).
Proof.
  intros Hext Hr. destruct (dict_mem mh col) eqn:Hm.
  - destruct (dict_get (nth r h []) col) as [s|] eqn:Hg.
    + destruct (clean_body_m_keep mh r col h s) as (g & Hfst & Hres);
        [lia | assumption | assumption |].
      rewrite (clean_body_keep mh _ col s Hm Hg).
      split; [rewrite Hfst; apply extends_update; [assumption | lia]|].
      destruct (coerce s) as [s'|e]; cbn [bind]; [|assumption].
      destruct Hres as [-> Hsnd]. exists r. rewrite Hfst, length_update.
      split; [assumption|]. split; [lia|]. apply nth_update. lia.
    + rewrite clean_body_m_absent by assumption.
      unfold clean_body, getitem. rewrite Hm, Hg. cbn. split; [assumption | reflexivity].
  - rewrite clean_body_m_drop, clean_body_drop by assumption.
    split; cbn [fst snd]; [now apply extends_alloc|].
    exists (List.length h). rewrite length_app. simpl.
    split; [reflexivity|]. split; [lia|].
    now rewrite nth_middle.
Qed.

Lemma clean_loop_m_spec mh cols : forall r h h0,
  extends h0 h -> (List.length h0 <= r < List.length h)%nat ->
  stands_for h0 (clean_loop_m mh cols r h) (clean_loop mh cols (nth r h [])).
Proof.
  induction cols as [|col cols IH]; intros r h h0 Hext Hr; simpl.
  - split; [assumption|]. exists r. cbn. tauto.
  - destruct (clean_body_m_spec mh r col h h0 Hext Hr) as [Hext' Hres].
    unfold mbind. destruct (clean_body_m mh r col h) as [h' res]. cbn [fst snd] in *.
    destruct (clean_body mh (nth r h []) col) as [f'|e]; cbn [bind].
    + destruct Hres as (r' & -> & Hr' & <-). now apply IH.
    + rewrite Hres. split; [assumption | reflexivity].
Qed.

(** [clean_m] on a store stands for [clean] on the frame its argument
    refers to. *)
Lemma clean_m_spec mh r h :
  stands_for h (clean_m r mh h) (clean (nth r h []) mh).
Proof.
  unfold clean_m, columns_m, rename_m, getitem_m, setitem_m, mbind, raise_of, ret,
    deref, alloc, assign.
  cbv beta iota. rewrite !nth_middle.
  unfold clean, clean_head, renamed.
  set (f2 := rename (rename (nth r h []) _) aliases).
  set (h2 := ((h ++ _) ++ [f2])%list).
  set (r2 := List.length (h ++ _)%list).
  assert (Hext : extends h h2).
  { apply extends_alloc, extends_alloc, extends_refl. }
  assert (Hr2 : (List.length h <= r2 < List.length h2)%nat).
  { unfold r2, h2. rewrite !length_app. simpl. lia. }
  assert (Hlive : (r2 < List.length h2)%nat) by lia.
  assert (Hext' : forall g, extends h (update h2 r2 g)).
  { intros g. apply extends_update; [assumption | lia]. }
  destruct (getitem f2 "pickup_datetime") as [s1|e]; cbn [bind];
    [|split; [assumption | reflexivity]].
  destruct (astype s1 "datetime64[ms]") as [s1'|e]; cbn [bind];
    [|split; [assumption | reflexivity]].
  rewrite !nth_update by exact Hlive.
  destruct (getitem (setitem f2 "pickup_datetime" s1') "dropoff_datetime") as [s2|e];
    cbn [bind]; [|split; [apply Hext' | reflexivity]].
  destruct (astype s2 "datetime64[ms]") as [s2'|e]; cbn [bind];
    [|split; [apply Hext' | reflexivity]].
  rewrite update_update, nth_update by exact Hlive.
  set (f3 := setitem (setitem f2 "pickup_datetime" s1') "dropoff_datetime" s2').
  pose proof (clean_loop_m_spec mh (columns f3) r2 (update h2 r2 f3) h (Hext' f3)) as L.
  rewrite nth_update in L by exact Hlive.
  apply L. rewrite length_update. lia.
Qed.

(** Two calls on the same reference: both return, the second leaves the
    frame of the first alone, and the two frames are equal. *)
Lemma clean_m_twice mh r h out :
  (r < List.length h)%nat -> clean (nth r h []) mh = Ok out ->
  exists r1 r2,
    snd (clean_m r mh h) = Ok r1 /\
    snd (clean_m r mh (fst (clean_m r mh h))) = Ok r2 /\
    r1 <> r2 /\
    nth r1 (fst (clean_m r mh (fst (clean_m r mh h)))) [] = out /\
    nth r2 (fst (clean_m r mh (fst (clean_m r mh h)))) [] = out.
Proof.
  intros Hr H.
  destruct (clean_m_spec mh r h) as [Hext1 Hres1]. rewrite H in Hres1.
  destruct Hres1 as (r1 & S1 & Hr1 & N1).
  set (h1 := fst (clean_m r mh h)) in *.
  destruct (clean_m_spec mh r h1) as [Hext2 Hres2].
  rewrite (extends_nth h h1 r Hext1 Hr), H in Hres2.
  destruct Hres2 as (r2 & S2 & Hr2 & N2).
  exists r1, r2. repeat split; try assumption; [lia|].
  rewrite (extends_nth h1 _ r1 Hext2); [assumption | lia].
Qed.

End StoreFacts.

(** ** Names *)

Section NameFacts.

Lemma normal_idem (k : string) : normal (normal k) = normal k.
Proof. apply PyStrFacts.lower_strip_idem. Qed.

Lemma mapped_aliases_cases (n : string) :
  mapped aliases n = "pickup_datetime" \/ mapped aliases n = "dropoff_datetime" \/
  mapped aliases n = "rate_code" \/ mapped aliases n = n.
Proof.
  unfold mapped, aliases. cbn [dict_get].
  destruct (String.eqb "tpep_pickup_datetime" n); [tauto|].
  destruct (String.eqb "tpep_dropoff_datetime" n); [tauto|].
  destruct (String.eqb "ratecodeid" n); tauto.
Qed.

(** A canonical name is its own canonical name. *)
Lemma canonical_idem (k : string) : canonical (canonical k) = canonical k.
Proof.
  assert (H : canonical k = mapped aliases (normal k)) by reflexivity.
  destruct (mapped_aliases_cases (normal k)) as [C | [C | [C | C]]];
    rewrite C in H; rewrite H; try reflexivity.
  unfold canonical. now rewrite normal_idem.
Qed.

(** An alias ends up as the name it stands for, which stays as it is. *)
Lemma alias_of_canonical (a c : string) :
  alias_of a c ->
  canonical a = c /\ canonical c = c /\ In (normal a) (keys aliases).
Proof.
  unfold alias_of, canonical, normal.
  intros [[-> ->] | [[-> ->] | [-> ->]]]; repeat split; simpl; tauto.
Qed.

(** No column ends up under a name that the alias table replaces. *)
Lemma canonical_not_alias (x a : string) : In a (keys aliases) -> canonical x <> a.
Proof.
  unfold canonical, mapped, aliases. cbn [dict_get keys map fst].
  destruct (String.eqb "tpep_pickup_datetime" (normal x)) eqn:E1;
    [intros [<- | [<- | [<- | []]]]; discriminate|].
  destruct (String.eqb "tpep_dropoff_datetime" (normal x)) eqn:E2;
    [intros [<- | [<- | [<- | []]]]; discriminate|].
  destruct (String.eqb "ratecodeid" (normal x)) eqn:E3;
    [intros [<- | [<- | [<- | []]]]; discriminate|].
  apply String.eqb_neq in E1, E2, E3.
  intros [<- | [<- | [<- | []]]]; congruence.
Qed.

Context {E : Engine}.

Lemma coversb_covers (b : DataFrame) (mh : dict string) :
  coversb b mh = true -> covers b mh.
Proof.
  unfold coversb, covers. rewrite forallb_forall. intros H k Hk.
  specialize (H k Hk). apply existsb_exists in H.
  destruct H as (k' & Hin & Heq). apply String.eqb_eq in Heq. now subst.
Qed.

Lemma relabel_combine (b : DataFrame) :
  map (fun kv => (canonical (fst kv), snd kv)) b
  = combine (map canonical (columns b)) (map snd b).
Proof.
  induction b as [|[k s] b IH]; simpl; [reflexivity|]. now rewrite IH.
Qed.

End NameFacts.

(** ** From the output back to the input *)

Section OutputFacts.

Context {E : Engine}.
Implicit Types (b f out : DataFrame) (s n : Series) (k : string) (mh : dict string).

Lemma project_get_inv mh f out k s' :
  project mh f = Ok out -> dict_get out k = Some s' ->
  dict_mem mh k = true /\ exists s, dict_get f k = Some s /\ coerce s = Ok s'.
Proof.
  revert out. induction f as [|[k' s0] f IH]; simpl; intros out.
  - intros [= <-]. discriminate.
  - destruct (dict_mem mh k') eqn:Hm.
    + destruct (coerce s0) as [s0'|] eqn:Hc; cbn [bind]; [|discriminate].
      destruct (project mh f) as [r|]; cbn [bind]; [|discriminate].
      intros [= <-]. simpl. destruct (String.eqb k' k) eqn:Ek.
      * apply String.eqb_eq in Ek. subst k'. intros [= <-].
        split; [assumption|]. now exists s0.
      * now apply IH.
    + intros Hp Hg. destruct (IH out Hp Hg) as (Hk & s & Hs & Hc).
      split; [assumption|]. exists s. split; [|assumption].
      destruct (String.eqb k' k) eqn:Ek; [|assumption].
      apply String.eqb_eq in Ek. congruence.
Qed.

(** A timestamp column of the output is a [datetime64[ms]] series. *)
Lemma clean_get_timestamp b mh out k :
  clean b mh = Ok out -> k = "pickup_datetime" \/ k = "dropoff_datetime" ->
  (dict_mem mh k = true -> exists s, dict_get out k = Some s /\ dtype s = "datetime64[ms]") /\
  (forall s, dict_get out k = Some s -> dtype s = "datetime64[ms]").
Proof.
  intros H Hk. destruct (clean_inv _ _ _ H) as (f & Hf & Hp).
  destruct (clean_head_timestamp _ _ k Hf Hk) as (s0 & G0 & D0).
  split.
  - intros Hm. destruct (project_get _ _ _ _ _ Hp Hm G0) as (s & Hc & G).
    exists s. split; [assumption|].
    rewrite (coerce_dtype _ _ Hc), D0. reflexivity.
  - intros s G. destruct (project_get_inv _ _ _ _ _ Hp G) as (_ & s1 & G1 & Hc).
    rewrite G0 in G1. injection G1 as <-.
    rewrite (coerce_dtype _ _ Hc), D0. reflexivity.
Qed.

(** Any other column of the output is the coerced series of the column
    that bears its name after the renames. *)
Lemma clean_get_other b mh out k s :
  clean b mh = Ok out -> k <> "pickup_datetime" -> k <> "dropoff_datetime" ->
  dict_get out k = Some s ->
  exists n, dict_get (renamed b) k = Some n /\ coerce n = Ok s.
Proof.
  intros H Hp Hd G. destruct (clean_inv _ _ _ H) as (f & Hf & Hpr).
  destruct (project_get_inv _ _ _ _ _ Hpr G) as (_ & n & Gn & Hc).
  exists n. split; [|assumption].
  now rewrite <- (clean_head_other _ _ k Hf Hp Hd).
Qed.

Lemma clean_keeps b mh out k n :
  clean b mh = Ok out -> k <> "pickup_datetime" -> k <> "dropoff_datetime" ->
  dict_mem mh k = true -> dict_get (renamed b) k = Some n ->
  exists s, dict_get out k = Some s /\ coerce n = Ok s.
Proof.
  intros H Hp Hd Hm G. destruct (clean_inv _ _ _ H) as (f & Hf & Hpr).
  rewrite <- (clean_head_other _ _ k Hf Hp Hd) in G.
  destruct (project_get _ _ _ _ _ Hpr Hm G) as (s & Hc & Gs). eauto.
Qed.

Lemma In_dict_set (d : DataFrame) k0 (v : Series) k s :
  In (k, s) (dict_set d k0 v) -> In (k, s) d \/ (k, s) = (k0, v).
Proof.
  induction d as [|[k' v'] d IH]; simpl.
  - intuition auto.
  - destruct (String.eqb k' k0); simpl; [intuition auto|].
    intros [H | H]; [tauto|]. destruct (IH H); tauto.
Qed.

Lemma In_fold_step (g : string -> string) f (acc : DataFrame) k s :
  In (k, s) (fold_left (step g) f acc) ->
  In (k, s) acc \/ exists k0, In (k0, s) f /\ g k0 = k.
Proof.
  revert acc. induction f as [|[k1 s1] f IH]; intros acc; simpl; [tauto|].
  intros H. apply IH in H. destruct H as [H | (k0 & Hin & Hg)].
  - unfold step in H. simpl in H. apply In_dict_set in H.
    destruct H as [H | [= -> ->]]; [now left|].
    right. exists k1. split; [now left | reflexivity].
  - right. exists k0. split; [now right | assumption].
Qed.

(** Every series of the renamed frame is the series of a raw column whose
    canonical name it bears. *)
Lemma In_renamed b k n :
  In (k, n) (renamed b) -> exists k0, In (k0, n) b /\ canonical k0 = k.
Proof.
  unfold renamed. rewrite rename_tmp, rename_fold. intros H.
  apply In_fold_step in H. destruct H as [[] | (k1 & H & Hk1)].
  apply In_fold_step in H. destruct H as [[] | (k0 & H & Hk0)].
  exists k0. split; [assumption|]. unfold canonical. now rewrite Hk0.
Qed.

(** A text column that makes the loop raise is a text column of the
    renamed batch. *)
Lemma clean_attribute b mh :
  clean b mh = Raise AttributeError ->
  exists k n, In (k, n) (renamed b) /\ dict_mem mh k = true /\ dtype n = "object".
Proof.
  rewrite clean_project. destruct (clean_head b) as [f|e] eqn:Hf; cbn [bind].
  - intros P. destruct (project_attribute _ _ P) as (k & n & Hin & Hm & Ho).
    exists k, n. split; [|tauto].
    destruct (clean_head_inv _ _ Hf) as (s1 & s1' & s2 & s2' & _ & A1 & _ & A2 & ->).
    apply astype_dtype in A1, A2. unfold setitem in Hin.
    apply In_dict_set in Hin. destruct Hin as [Hin | [= -> ->]]; [|congruence].
    apply In_dict_set in Hin. destruct Hin as [Hin | [= -> ->]]; [assumption | congruence].
  - intros [= ->]. apply clean_head_raises in Hf.
    destruct Hf as [[=] | [k [=]]].
Qed.

(** Batches whose names agree after the renames come out under the same
    names; with the same series and no collision, [clean] does the same
    on both. *)
Lemma clean_same_names b1 b2 mh :
  map canonical (columns b1) = map canonical (columns b2) ->
  (forall o1 o2, clean b1 mh = Ok o1 -> clean b2 mh = Ok o2 ->
     columns o1 = columns o2) /\
  (map snd b1 = map snd b2 -> collision_free b1 -> clean b1 mh = clean b2 mh).
Proof.
  intros Hn. split.
  - intros o1 o2 H1 H2.
    now rewrite (columns_clean _ _ _ H1), (columns_clean _ _ _ H2), Hn.
  - intros Hs Hcf.
    assert (Hr : renamed b1 = renamed b2).
    { rewrite !renamed_collision_free.
      - now rewrite !relabel_combine, Hn, Hs.
      - unfold collision_free. now rewrite <- Hn.
      - assumption. }
    unfold clean, clean_head. now rewrite Hr.
Qed.

(** *** Cell by cell *)







End OutputFacts.

(** * The properties of [clean] *)

#[export] Instance sample_laws : EngineLaws Sample.engine.
Proof.
  constructor. intros d v. cbn. unfold Sample.sample_cast.
  now rewrite String.eqb_refl.
Qed.

Section Claims.

Context {E : Engine}.
Implicit Types (b f out : DataFrame) (s n : Series) (k : string) (mh : dict string).

(** C1. When a raw batch has every column the column specification names,
    under its own name or under one that trimming, lower-casing and the
    alias table turn into it, the batch [clean] returns has exactly the
    keys of the specification as its column names, each once.  When the
    specification asks for both timestamp columns, as [must_haves] does,
    [clean] does return on such a batch unless the engine refuses a cast,
    or a column it keeps arrives as text and [.str.fillna] raises. *)
Theorem clean_columns_exact b mh :
  covers b mh ->
  (forall out, clean b mh = Ok out ->
     NoDup (columns out) /\ forall k, In k (columns out) <-> In k (keys mh)) /\
  (In "pickup_datetime" (keys mh) -> In "dropoff_datetime" (keys mh) ->
   (exists out, clean b mh = Ok out) \/ clean b mh = Raise ValueError \/
   (clean b mh = Raise AttributeError /\
    exists k n, In (k, n) (renamed b) /\ In k (keys mh) /\ dtype n = "object")).
Proof.
  intros Hcov. split.
  - intros out H. split; [now apply (NoDup_columns_clean b mh)|].
    intros k. rewrite (In_columns_clean _ _ _ k H).
    split; [tauto|]. intros Hk. split; [assumption | now apply Hcov].
  - intros Hp Hd.
    assert (K : forall k, clean b mh <> Raise (KeyError k)).
    { intros k. apply clean_no_KeyError; apply In_columns_renamed; now apply Hcov. }
    destruct (clean b mh) as [out|e] eqn:H; [left; eauto|].
    destruct (clean_raises _ _ _ H) as [-> | [-> | [k ->]]].
    + right. now left.
    + right. right. split; [reflexivity|].
      destruct (clean_attribute _ _ H) as (k & n & Hin & Hm & Ho).
      exists k, n. rewrite <- dict_mem_In. tauto.
    + now destruct (K k).
Qed.

(** C2, as amended.  [clean] checks no schema: it raises [KeyError],
    returning nothing, when the pick-up or the drop-off timestamp column
    is absent after the renames (for the drop-off column, unless the cast
    of the pick-up column has been refused first); the absence of any
    other required column raises nothing, and the output has the required
    columns that the batch does have. *)
Theorem clean_schema_mismatch b mh :
  (~ In "pickup_datetime" (map canonical (columns b)) ->
   clean b mh = Raise (KeyError "pickup_datetime")) /\
  (In "pickup_datetime" (map canonical (columns b)) ->
   ~ In "dropoff_datetime" (map canonical (columns b)) ->
   clean b mh = Raise (KeyError "dropoff_datetime") \/ clean b mh = Raise ValueError) /\
  (In "pickup_datetime" (map canonical (columns b)) ->
   In "dropoff_datetime" (map canonical (columns b)) ->
   (forall k, clean b mh <> Raise (KeyError k)) /\
   (forall out, clean b mh = Ok out ->
      forall k, In k (columns out) <->
                In k (keys mh) /\ In k (map canonical (columns b)))).
Proof.
  split; [|split].
  - intros Hp. rewrite <- In_columns_renamed in Hp.
    rewrite clean_project, clean_head_no_pickup by assumption. reflexivity.
  - intros Hp Hd. rewrite <- In_columns_renamed in Hp, Hd. rewrite clean_project.
    destruct (clean_head_no_dropoff b Hp Hd) as [-> | ->]; cbn [bind]; tauto.
  - intros Hp Hd. rewrite <- In_columns_renamed in Hp, Hd. split.
    + intros k. now apply clean_no_KeyError.
    + intros out H k. now apply In_columns_clean.
Qed.

(** C3, as amended.  Two batches that each have every required column
    come out of [clean] with the same set of column names; the two
    timestamp columns are [datetime64[ms]] in both; every other column has
    the same dtype in both when its dtypes in the two batches are coerced
    to the same dtype (floats to [float32], integers to [int32], anything
    else to itself). *)
Theorem clean_same_shape b1 b2 mh o1 o2 :
  covers b1 mh -> covers b2 mh ->
  clean b1 mh = Ok o1 -> clean b2 mh = Ok o2 ->
  (forall k, In k (columns o1) <-> In k (columns o2)) /\
  (forall k s1 s2,
     dict_get o1 k = Some s1 -> dict_get o2 k = Some s2 ->
     same_kind b1 b2 k -> dtype s1 = dtype s2) /\
  (forall k s,
     k = "pickup_datetime" \/ k = "dropoff_datetime" ->
     dict_get o1 k = Some s \/ dict_get o2 k = Some s ->
     dtype s = "datetime64[ms]").
Proof.
  intros C1 C2 H1 H2. split; [|split].
  - intros k.
    rewrite (In_columns_clean _ _ _ k H1), (In_columns_clean _ _ _ k H2).
    split; intros [Hk _]; (split; [assumption|]); [now apply C2 | now apply C1].
  - intros k s1 s2 G1 G2 Hk.
    destruct (string_dec k "pickup_datetime") as [Ep|Np].
    { destruct (clean_get_timestamp b1 mh o1 k H1 (or_introl Ep)) as [_ T1].
      destruct (clean_get_timestamp b2 mh o2 k H2 (or_introl Ep)) as [_ T2].
      now rewrite (T1 _ G1), (T2 _ G2). }
    destruct (string_dec k "dropoff_datetime") as [Ed|Nd].
    { destruct (clean_get_timestamp b1 mh o1 k H1 (or_intror Ed)) as [_ T1].
      destruct (clean_get_timestamp b2 mh o2 k H2 (or_intror Ed)) as [_ T2].
      now rewrite (T1 _ G1), (T2 _ G2). }
    destruct Hk as [? | [? | (n1 & n2 & N1 & N2 & Hsame)]]; [tauto | tauto |].
    destruct (clean_get_other b1 mh o1 k s1 H1 Np Nd G1) as (n1' & N1' & Hc1).
    destruct (clean_get_other b2 mh o2 k s2 H2 Np Nd G2) as (n2' & N2' & Hc2).
    rewrite N1 in N1'. injection N1' as <-.
    rewrite N2 in N2'. injection N2' as <-.
    now rewrite (coerce_dtype _ _ Hc1), (coerce_dtype _ _ Hc2).
  - intros k s Hk [G | G].
    + destruct (clean_get_timestamp b1 mh o1 k H1 Hk) as [_ T]. now apply T.
    + destruct (clean_get_timestamp b2 mh o2 k H2 Hk) as [_ T]. now apply T.
Qed.

(** C4, where the code departs from it.  A kept column, other than the two
    timestamps, that arrives as text is neither filled nor cast: the turn
    of the loop on it stops at [.str.fillna], and [clean] returns no batch
    for a batch that has such a column. *)
Theorem clean_text_column_raises b mh k n :
  dict_get (renamed b) k = Some n ->
  k <> "pickup_datetime" -> k <> "dropoff_datetime" ->
  dict_mem mh k = true -> dtype n = "object" ->
  coerce n = Raise AttributeError /\ exists e, clean b mh = Raise e.
Proof.
  intros G Np Nd Hm Hobj.
  pose proof (coerce_text n Hobj) as Hc. split; [assumption|].
  rewrite clean_project.
  destruct (clean_head b) as [f|e] eqn:Hf; cbn [bind]; [|eauto].
  apply (project_refused mh f k n AttributeError); [|assumption|assumption].
  apply dict_get_Some_In. now rewrite (clean_head_other _ _ k Hf Np Nd).
Qed.

(** C5, where the code departs from it.  When the statements before the
    loop go through and every kept column that is not text can be
    coerced, a kept text column, other than the two timestamps, makes
    [clean] raise [AttributeError], whatever its cells hold: no cell of it
    is parsed, and the exception is not the one of a refused cast. *)
Theorem clean_text_column_attribute_error b mh f k n :
  clean_head b = Ok f ->
  dict_get (renamed b) k = Some n ->
  k <> "pickup_datetime" -> k <> "dropoff_datetime" ->
  dict_mem mh k = true -> dtype n = "object" ->
  (forall k' n', In (k', n') f -> dict_mem mh k' = true -> dtype n' <> "object" ->
                 exists r, coerce n' = Ok r) ->
  clean b mh = Raise AttributeError.
Proof.
  intros Hf G Np Nd Hm Hobj Hall.
  rewrite clean_project, Hf. cbn [bind].
  apply (project_text mh f k n); try assumption.
  apply dict_get_Some_In. now rewrite (clean_head_other _ _ k Hf Np Nd).
Qed.

(** C6. [clean] applied to a batch it returned returns that batch again,
    for a column specification that asks for both timestamp columns, as
    [must_haves] does, and an engine whose cast to the same dtype changes
    nothing; and two calls of [clean] on the same frame object return two
    frames that are equal. *)
Theorem clean_idempotent `{!EngineLaws E} b mh out :
  In "pickup_datetime" (keys mh) -> In "dropoff_datetime" (keys mh) ->
  clean b mh = Ok out ->
  clean out mh = Ok out /\
  (forall (h : store) (ddf : ref),
     (ddf < List.length h)%nat -> nth ddf h [] = b ->
     exists r1 r2,
       snd (clean_m ddf mh h) = Ok r1 /\
       snd (clean_m ddf mh (fst (clean_m ddf mh h))) = Ok r2 /\
       r1 <> r2 /\
       nth r1 (fst (clean_m ddf mh (fst (clean_m ddf mh h)))) [] = out /\
       nth r2 (fst (clean_m ddf mh (fst (clean_m ddf mh h)))) [] = out).
Proof.
  intros Hp Hd H. split.
  2:{ intros h ddf Hlive Hb. apply clean_m_twice; [assumption | now rewrite Hb]. }
  assert (Hfix : forall k, In k (columns out) -> canonical k = k).
  { intros k Hk. apply (In_columns_clean _ _ _ k H) in Hk. destruct Hk as [_ Hk].
    apply in_map_iff in Hk. destruct Hk as (k0 & <- & _). apply canonical_idem. }
  assert (Hmap : map canonical (columns out) = columns out).
  { rewrite <- (map_id (columns out)) at 2. now apply map_ext_in. }
  assert (Hren : renamed out = out).
  { rewrite renamed_collision_free.
    - rewrite <- (map_id out) at 2. apply map_ext_in. intros [k s] Hin. simpl.
      f_equal. apply Hfix. now apply (in_map fst) in Hin.
    - unfold collision_free. rewrite Hmap. now apply (NoDup_columns_clean b mh). }
  assert (Hts : forall k, k = "pickup_datetime" \/ k = "dropoff_datetime" ->
                  In k (keys mh) ->
                  exists s, dict_get out k = Some s /\ astype s "datetime64[ms]" = Ok s).
  { intros k Hk Hin. destruct (clean_get_timestamp b mh out k H Hk) as [Hex _].
    destruct Hex as (s & G & D); [now apply dict_mem_In|].
    exists s. split; [assumption|]. rewrite <- D. apply astype_same. }
  assert (Hhead : clean_head out = Ok out).
  { unfold clean_head. rewrite Hren. unfold getitem, setitem.
    destruct (Hts "pickup_datetime" (or_introl eq_refl) Hp) as (s1 & G1 & A1).
    destruct (Hts "dropoff_datetime" (or_intror eq_refl) Hd) as (s2 & G2 & A2).
    rewrite G1. cbn [bind]. rewrite A1. cbn [bind].
    rewrite (dict_set_same _ _ _ G1), G2. cbn [bind]. rewrite A2. cbn [bind].
    now rewrite (dict_set_same _ _ _ G2). }
  rewrite clean_project, Hhead. cbn [bind].
  apply project_fixed. apply Forall_forall. intros [k s] Hin. simpl.
  destruct (clean_inv _ _ _ H) as (f & Hf & Hpr).
  destruct (project_In _ _ _ _ _ Hpr Hin) as (Hm & s0 & _ & Hc).
  split; [assumption | eapply coerce_idem; eassumption].
Qed.


(** C8. Two batches that are the same but for one column, which one names
    by a name that the alias table replaces, written with any blanks
    around it and in any case, and the other by the name it is replaced
    by, come out of [clean] under the same column names, in the same
    order: the alias is not among them, and the name it stands for is
    when the specification asks for it.  When no two columns collide on a
    name, [clean] does the same on both batches. *)
Theorem clean_alias_naming (pre post : DataFrame) (a c : string) s mh :
  alias_of a c ->
  (forall o1 o2,
     clean (pre ++ (a, s) :: post)%list mh = Ok o1 ->
     clean (pre ++ (c, s) :: post)%list mh = Ok o2 ->
     columns o1 = columns o2 /\
     ~ In (normal a) (columns o1) /\
     (In c (keys mh) -> In c (columns o1))) /\
  (collision_free (pre ++ (a, s) :: post)%list ->
   clean (pre ++ (a, s) :: post)%list mh = clean (pre ++ (c, s) :: post)%list mh).
Proof.
  intros Ha. destruct (alias_of_canonical a c Ha) as (Ca & Cc & Hkey).
  assert (Hn : map canonical (columns (pre ++ (a, s) :: post)%list)
               = map canonical (columns (pre ++ (c, s) :: post)%list)).
  { unfold columns, keys. rewrite !map_app. simpl. now rewrite Ca, Cc. }
  destruct (clean_same_names _ _ mh Hn) as [Hcols Hsame]. split.
  - intros o1 o2 H1 H2. split; [now apply Hcols|]. split.
    + intros Hin. apply (In_columns_clean _ _ _ _ H1) in Hin. destruct Hin as [_ Hin].
      apply in_map_iff in Hin. destruct Hin as (x & Hx & _).
      exact (canonical_not_alias x (normal a) Hkey Hx).
    + intros Hc. apply (In_columns_clean _ _ _ _ H1). split; [assumption|].
      unfold columns, keys. rewrite !map_app, in_app_iff. right. simpl. now left.
  - intros Hcf. apply Hsame; [|assumption]. now rewrite !map_app.
Qed.

(** C9. Running [clean] on a store of frames leaves every frame that was
    there before the call as it was, the caller's batch included; what
    the call adds is the new frame it returns a reference to, which is the
    batch [clean] computes from the caller's. *)
Theorem clean_m_leaves_input (h : store) (ddf : ref) mh :
  (ddf < List.length h)%nat ->
  nth ddf (fst (clean_m ddf mh h)) [] = nth ddf h [] /\
  firstn (List.length h) (fst (clean_m ddf mh h)) = h /\
  stands_for h (clean_m ddf mh h) (clean (nth ddf h []) mh).
Proof.
  intros Hlive. pose proof (clean_m_spec mh ddf h) as S.
  destruct S as [Hext Hres]. split; [|split].
  - now apply extends_nth.
  - now apply extends_firstn.
  - split; assumption.
Qed.

(** C10. In every batch [clean] returns for [must_haves], the pick-up and
    the drop-off column are [datetime64[ms]] series, while [must_haves]
    names [datetime64[s]] for them. *)
Theorem clean_timestamps_ms b out k :
  clean b must_haves = Ok out ->
  k = "pickup_datetime" \/ k = "dropoff_datetime" ->
  exists s,
    dict_get out k = Some s /\ dtype s = "datetime64[ms]" /\
    dict_get must_haves k = Some "datetime64[s]" /\
    dict_get must_haves k <> Some (dtype s).
Proof.
  intros H Hk. destruct (clean_get_timestamp b must_haves out k H Hk) as [Hex _].
  destruct Hex as (s & G & D); [destruct Hk as [-> | ->]; reflexivity|].
  exists s. rewrite D. repeat split; try assumption;
    destruct Hk as [-> | ->]; (reflexivity || discriminate).
Qed.

End Claims.

(** * The properties on the sample engine *)

Section OnSamples.

Import Sample.

(** The names of the vintages and the name they end up with. *)
Example known_aliases :
  canonical "tpep_pickup_datetime" = "pickup_datetime" /\
  canonical "Tpep_Pickup_Datetime " = "pickup_datetime" /\
  canonical " tpep_dropoff_datetime" = "dropoff_datetime" /\
  canonical "RateCodeID" = "rate_code" /\
  canonical "RatecodeID" = "rate_code" /\
  canonical " rate_code" = "rate_code".
Proof. repeat split; reflexivity. Qed.

(** Aliased and padded names come out under the names of the
    specification, and the column it does not name is gone. *)
Example aliased_names_resolved :
  option_map columns
    (match clean batch_aliased spec_aliased with Ok out => Some out | Raise _ => None end)
  = Some ["pickup_datetime"; "dropoff_datetime"; "passenger_count"].
Proof. vm_compute. reflexivity. Qed.

(** The scenario of the two-column specification, as written: without a
    drop-off column [clean] does not get as far as the loop. *)
Example pickup_only_raises :
  covers batch_pickup_only spec_pickup_only /\
  clean batch_pickup_only spec_pickup_only = Raise (KeyError "dropoff_datetime").
Proof. split; [apply coversb_covers|]; vm_compute; reflexivity. Qed.

(** A fare column read as text stops [clean] at [.str.fillna], whether
    its numbers are well formed or not, although the engine would cast
    the well-formed ones. *)
Example text_fares_raise :
  cast "object" "float32" (Str "12.5") = Some (Flt (25 # 2)) /\
  cast "object" "float32" (Str "12.5.3") = None /\
  clean batch_fares must_haves = Raise AttributeError /\
  clean batch_malformed must_haves = Raise AttributeError.
Proof. repeat split; vm_compute; reflexivity. Qed.

Lemma clean_columns_exact_witness :
  covers batch_2015 must_haves /\
  clean batch_2015 must_haves = Ok (cleaned batch_2015) /\
  (forall out, clean batch_2015 must_haves = Ok out ->
     NoDup (columns out) /\ forall k, In k (columns out) <-> In k (keys must_haves)) /\
  (In "pickup_datetime" (keys must_haves) -> In "dropoff_datetime" (keys must_haves) ->
   (exists out, clean batch_2015 must_haves = Ok out) \/
   clean batch_2015 must_haves = Raise ValueError \/
   (clean batch_2015 must_haves = Raise AttributeError /\
    exists k n, In (k, n) (renamed batch_2015) /\ In k (keys must_haves) /\
                dtype n = "object")).
Proof.
  assert (H : covers batch_2015 must_haves).
  { apply coversb_covers. vm_compute. reflexivity. }
  split; [exact H|]. split; [vm_compute; reflexivity|].
  exact (clean_columns_exact batch_2015 must_haves H).
Defined.

(** Against C2 as stated: [batch_short] has no fare column, under any
    name, and [clean] returns a batch for it. *)
Lemma short_batch_is_cleaned :
  In "fare_amount" (keys must_haves) /\
  ~ In "fare_amount" (map canonical (columns batch_short)) /\
  clean batch_short must_haves
  = Ok [ ("pickup_datetime",
          mkSeries "datetime64[ms]"
            [Some (Stamp 1389300325000); Some (Stamp 1389300751000);
             Some (Stamp 1389301200000)]);
         ("dropoff_datetime",
          mkSeries "datetime64[ms]"
            [Some (Stamp 1389300325000); Some (Stamp 1389300751000);
             Some (Stamp 1389301200000)]);
         ("passenger_count",
          mkSeries "int32" [Some (Int 1); Some (Int 2); Some (Int (-1))]) ].
Proof.
  split; [simpl; tauto|]. split; [|vm_compute; reflexivity].
  vm_compute. intuition discriminate.
Qed.

Lemma clean_schema_mismatch_witness :
  clean ([] : DataFrame) must_haves = Raise (KeyError "pickup_datetime") /\
  (clean batch_pickup_only must_haves = Raise (KeyError "dropoff_datetime") \/
   clean batch_pickup_only must_haves = Raise ValueError) /\
  (forall k, clean batch_short must_haves <> Raise (KeyError k)) /\
  (forall out, clean batch_short must_haves = Ok out ->
     forall k, In k (columns out) <->
               In k (keys must_haves) /\ In k (map canonical (columns batch_short))).
Proof.
  split; [|split].
  - apply (proj1 (clean_schema_mismatch [] must_haves)). simpl. tauto.
  - apply (proj1 (proj2 (clean_schema_mismatch batch_pickup_only must_haves))).
    + vm_compute. tauto.
    + vm_compute. intuition discriminate.
  - apply (proj2 (proj2 (clean_schema_mismatch batch_short must_haves)));
      vm_compute; tauto.
Defined.

(** Against C3 as stated: both batches have every required column, and
    the passenger count, 64-bit floats in one and 64-bit integers in the
    other, comes out as [float32] from one and as [int32] from the
    other. *)
Lemma passenger_count_types_differ :
  covers batch_2014 must_haves /\ covers batch_2015 must_haves /\
  dict_get batch_2014 " passenger_count"
  = Some (mkSeries "float64" [Some (Flt (1 # 1))]) /\
  dict_get batch_2015 "passenger_count"
  = Some (mkSeries "int64" [Some (Int 1); None]) /\
  clean batch_2014 must_haves = Ok (cleaned batch_2014) /\
  clean batch_2015 must_haves = Ok (cleaned batch_2015) /\
  dict_get (cleaned batch_2014) "passenger_count"
  = Some (mkSeries "float32" [Some (Flt (1 # 1))]) /\
  dict_get (cleaned batch_2015) "passenger_count"
  = Some (mkSeries "int32" [Some (Int 1); Some (Int (-1))]).
Proof.
  repeat split; try (apply coversb_covers); vm_compute; reflexivity.
Qed.

Lemma clean_same_shape_witness :
  (forall k, In k (columns (cleaned batch_2014)) <-> In k (columns (cleaned batch_2015))) /\
  (forall k s1 s2,
     dict_get (cleaned batch_2014) k = Some s1 ->
     dict_get (cleaned batch_2015) k = Some s2 ->
     same_kind batch_2014 batch_2015 k -> dtype s1 = dtype s2) /\
  (forall k s,
     k = "pickup_datetime" \/ k = "dropoff_datetime" ->
     dict_get (cleaned batch_2014) k = Some s \/ dict_get (cleaned batch_2015) k = Some s ->
     dtype s = "datetime64[ms]").
Proof.
  apply (clean_same_shape batch_2014 batch_2015 must_haves).
  - apply coversb_covers. vm_compute. reflexivity.
  - apply coversb_covers. vm_compute. reflexivity.
  - vm_compute. reflexivity.
  - vm_compute. reflexivity.
Defined.

Lemma clean_text_column_raises_witness :
  dict_get must_haves "fare_amount" = Some "float32" /\
  clean batch_fares must_haves = Raise AttributeError /\
  coerce text_fares = Raise AttributeError /\
  exists e, clean batch_fares must_haves = Raise e.
Proof.
  split; [reflexivity|]. split; [vm_compute; reflexivity|].
  apply (clean_text_column_raises batch_fares must_haves "fare_amount" text_fares).
  - vm_compute. reflexivity.
  - discriminate.
  - discriminate.
  - reflexivity.
  - reflexivity.
Defined.

Lemma clean_text_column_attribute_error_witness :
  cast "object" "float32" (Str "12.5.3") = None /\
  clean batch_malformed must_haves = Raise AttributeError.
Proof.
  split; [vm_compute; reflexivity|].
  apply (clean_text_column_attribute_error batch_malformed must_haves
           [ ("pickup_datetime", stamps_ms); ("dropoff_datetime", stamps_ms);
             ("fare_amount", malformed_fares) ]
           "fare_amount" malformed_fares).
  - vm_compute. reflexivity.
  - vm_compute. reflexivity.
  - discriminate.
  - discriminate.
  - reflexivity.
  - reflexivity.
  - intros k' n' [[= <- <-] | [[= <- <-] | [[= <- <-] | []]]] _ Hd.
    + eexists. reflexivity.
    + eexists. reflexivity.
    + now destruct Hd.
Defined.

Lemma clean_idempotent_witness :
  clean batch_2015 must_haves = Ok (cleaned batch_2015) /\
  clean (cleaned batch_2015) must_haves = Ok (cleaned batch_2015) /\
  (forall (h : store) (ddf : ref),
     (ddf < List.length h)%nat -> nth ddf h [] = batch_2015 ->
     exists r1 r2,
       snd (clean_m ddf must_haves h) = Ok r1 /\
       snd (clean_m ddf must_haves (fst (clean_m ddf must_haves h))) = Ok r2 /\
       r1 <> r2 /\
       nth r1 (fst (clean_m ddf must_haves (fst (clean_m ddf must_haves h)))) []
       = cleaned batch_2015 /\
       nth r2 (fst (clean_m ddf must_haves (fst (clean_m ddf must_haves h)))) []
       = cleaned batch_2015).
Proof.
  assert (H : clean batch_2015 must_haves = Ok (cleaned batch_2015)).
  { vm_compute. reflexivity. }
  split; [exact H|].
  apply (clean_idempotent batch_2015 must_haves (cleaned batch_2015)).
  - simpl. tauto.
  - simpl. tauto.
  - exact H.
Defined.


(** The cells of [batch_2015], before and after: the nulls are the cells
    for [-1], the others are cast. *)
Example nulls_become_sentinels :
  dict_get (renamed batch_2015) "passenger_count"
  = Some (mkSeries "int64" [Some (Int 1); None]) /\
  dict_get (cleaned batch_2015) "passenger_count"
  = Some (mkSeries "int32" [Some (Int 1); Some (Int (-1))]) /\
  dict_get (renamed batch_2015) "fare_amount"
  = Some (mkSeries "float64" [Some (Flt (25 # 2)); None]) /\
  dict_get (cleaned batch_2015) "fare_amount"
  = Some (mkSeries "float32" [Some (Flt (25 # 2)); Some (Flt (-1 # 1))]) /\
  dict_get (renamed batch_2015) "dropoff_datetime"
  = Some (mkSeries "object" [Some (Str "2015-01-15 19:23:42"); None]) /\
  dict_get (cleaned batch_2015) "dropoff_datetime"
  = Some (mkSeries "datetime64[ms]" [Some (Stamp 1421349822000); Some (Stamp (-1))]).
Proof. repeat split; vm_compute; reflexivity. Qed.

Lemma clean_alias_naming_witness :
  ((forall o1 o2,
      clean ([("pickup_datetime", stamps); ("dropoff_datetime", stamps)]
             ++ ("RateCodeID", rate_codes) :: [])%list must_haves = Ok o1 ->
      clean ([("pickup_datetime", stamps); ("dropoff_datetime", stamps)]
             ++ ("rate_code", rate_codes) :: [])%list must_haves = Ok o2 ->
      columns o1 = columns o2 /\
      ~ In (normal "RateCodeID") (columns o1) /\
      (In "rate_code" (keys must_haves) -> In "rate_code" (columns o1))) /\
   (collision_free ([("pickup_datetime", stamps); ("dropoff_datetime", stamps)]
                    ++ ("RateCodeID", rate_codes) :: [])%list ->
    clean ([("pickup_datetime", stamps); ("dropoff_datetime", stamps)]
           ++ ("RateCodeID", rate_codes) :: [])%list must_haves
    = clean ([("pickup_datetime", stamps); ("dropoff_datetime", stamps)]
             ++ ("rate_code", rate_codes) :: [])%list must_haves)) /\
  normal "RateCodeID" = "ratecodeid" /\
  option_map columns
    (match clean [("pickup_datetime", stamps); ("dropoff_datetime", stamps);
                  ("RateCodeID", rate_codes)] must_haves with
     | Ok out => Some out
     | Raise _ => None
     end)
  = Some ["pickup_datetime"; "dropoff_datetime"; "rate_code"].
Proof.
  split; [|split; vm_compute; reflexivity].
  apply (clean_alias_naming
           [("pickup_datetime", stamps); ("dropoff_datetime", stamps)] []
           "RateCodeID" "rate_code" rate_codes must_haves).
  right. right. split; reflexivity.
Defined.

(** The two timestamp aliases, capitalised and padded: both batches come
    out under the names of the specification. *)
Example timestamp_aliases_resolved :
  alias_of "Tpep_Pickup_Datetime " "pickup_datetime" /\
  alias_of " tpep_dropoff_datetime" "dropoff_datetime" /\
  alias_of "RatecodeID" "rate_code" /\
  option_map columns
    (match clean [("Tpep_Pickup_Datetime ", stamps); (" tpep_dropoff_datetime", stamps)]
             must_haves with
     | Ok out => Some out
     | Raise _ => None
     end)
  = Some ["pickup_datetime"; "dropoff_datetime"] /\
  clean [("Tpep_Pickup_Datetime ", stamps); (" tpep_dropoff_datetime", stamps)] must_haves
  = clean [("pickup_datetime", stamps); ("dropoff_datetime", stamps)] must_haves.
Proof.
  split; [left; split; reflexivity|].
  split; [right; left; split; reflexivity|].
  split; [right; right; split; reflexivity|].
  split; vm_compute; reflexivity.
Qed.

Lemma clean_m_leaves_input_witness :
  nth 0 (fst (clean_m 0 must_haves [batch_2015])) [] = nth 0 [batch_2015] [] /\
  firstn (List.length [batch_2015]) (fst (clean_m 0 must_haves [batch_2015]))
  = [batch_2015] /\
  stands_for [batch_2015] (clean_m 0 must_haves [batch_2015])
    (clean (nth 0 [batch_2015] []) must_haves).
Proof.
  apply (clean_m_leaves_input [batch_2015] 0 must_haves). simpl. lia.
Defined.

Lemma clean_timestamps_ms_witness :
  exists s,
    dict_get (cleaned batch_2015) "pickup_datetime" = Some s /\
    dtype s = "datetime64[ms]" /\
    dict_get must_haves "pickup_datetime" = Some "datetime64[s]" /\
    dict_get must_haves "pickup_datetime" <> Some (dtype s).
Proof.
  apply (clean_timestamps_ms batch_2015 (cleaned batch_2015) "pickup_datetime").
  - vm_compute. reflexivity.
  - left. reflexivity.
Defined.

End OnSamples.

(** * The rest of the notebook *)

(** ** [drop_empty_partitions] *)

Section PartitionFacts.

Context {P : Type} (len : P -> nat).

Lemma selected_filter (df : list P) :
  selected df (map (fun length => (0 <? length)%nat) (map len df))
  = filter (fun p => (0 <? len p)%nat) df.
Proof.
  rewrite map_map.
  induction df as [|p df IH]; simpl; [reflexivity|].
  now rewrite IH.
Qed.

(** [drop_empty_partitions] returns the partitions that are not empty
    when there is one, and raises otherwise. *)
Lemma drop_empty_partitions_Ok (df out : list P) :
  drop_empty_partitions len df = Ok out <->
  filter (fun p => (0 <? len p)%nat) df = out /\ out <> [].
Proof.
  unfold drop_empty_partitions, partitions. rewrite selected_filter.
  destruct (filter (fun p => (0 <? len p)%nat) df) as [|p ps].
  - split; [discriminate|]. intros [<- H]. now destruct H.
  - split; [intros [= <-]; split; [reflexivity | discriminate]|].
    now intros [<- _].
Qed.

Lemma drop_empty_partitions_Raise (df : list P) (e : exn) :
  drop_empty_partitions len df = Raise e <->
  filter (fun p => (0 <? len p)%nat) df = [] /\ e = IndexError.
Proof.
  unfold drop_empty_partitions, partitions. rewrite selected_filter.
  destruct (filter (fun p => (0 <? len p)%nat) df) as [|p ps].
  - split; [intros [= <-]; now split | now intros [_ ->]].
  - split; [discriminate | intros [[=] _]].
Qed.

Lemma filter_nonempty_nil (df : list P) :
  filter (fun p => (0 <? len p)%nat) df = [] <-> Forall (fun p => len p = 0%nat) df.
Proof.
  induction df as [|p df IH]; simpl.
  - split; [constructor | reflexivity].
  - destruct (0 <? len p)%nat eqn:Hp.
    + apply Nat.ltb_lt in Hp. split; [discriminate|].
      intros H. inversion H; subst. lia.
    + apply Nat.ltb_ge in Hp. rewrite IH. split.
      * intros H. constructor; [lia | assumption].
      * intros H. now inversion H.
Qed.

Lemma drop_empty_partitions_returns (df : list P) :
  Exists (fun p => (0 < len p)%nat) df ->
  exists out, drop_empty_partitions len df = Ok out.
Proof.
  intros H. apply Exists_exists in H. destruct H as (p & Hin & Hp).
  exists (filter (fun p => (0 <? len p)%nat) df).
  apply drop_empty_partitions_Ok. split; [reflexivity|].
  intros Hnil. assert (Hf : In p (filter (fun p => (0 <? len p)%nat) df)).
  { apply filter_In. split; [assumption | now apply Nat.ltb_lt]. }
  now rewrite Hnil in Hf.
Qed.

(** X1. When [drop_empty_partitions] returns, what it returns has a
    partition, no empty partition, and as many rows in all as what it was
    given; and it does return when some partition has a row. *)
Theorem drop_empty_partitions_rows (df : list P) :
  (Exists (fun p => (0 < len p)%nat) df ->
   exists out, drop_empty_partitions len df = Ok out) /\
  (forall out, drop_empty_partitions len df = Ok out ->
     out <> [] /\
     Forall (fun p => (0 < len p)%nat) out /\
     list_sum (map len out) = list_sum (map len df)).
Proof.
  split; [apply drop_empty_partitions_returns|].
  - intros out H. apply drop_empty_partitions_Ok in H. destruct H as [<- Hne].
    split; [assumption|]. split.
    + apply Forall_forall. intros p Hp. apply filter_In in Hp.
      destruct Hp as [_ Hp]. now apply Nat.ltb_lt in Hp.
    + clear Hne. induction df as [|p df IH]; simpl; [reflexivity|].
      destruct (0 <? len p)%nat eqn:Hp; simpl; rewrite IH; [reflexivity|].
      apply Nat.ltb_ge in Hp. lia.
Qed.

(** X2. [drop_empty_partitions] returns its own result unchanged, and
    returns the frame it was given exactly when that frame has a partition
    and no empty one. *)
Theorem drop_empty_partitions_idempotent (df : list P) :
  (forall out, drop_empty_partitions len df = Ok out ->
     drop_empty_partitions len out = Ok out) /\
  (drop_empty_partitions len df = Ok df <->
   df <> [] /\ Forall (fun p => (0 < len p)%nat) df).
Proof.
  assert (Hfix : forall l, Forall (fun p => (0 < len p)%nat) l ->
                           filter (fun p => (0 <? len p)%nat) l = l).
  { induction 1 as [|p l Hp _ IH]; simpl; [reflexivity|].
    apply Nat.ltb_lt in Hp. now rewrite Hp, IH. }
  assert (Hall : forall l, Forall (fun p => (0 < len p)%nat)
                                  (filter (fun p => (0 <? len p)%nat) l)).
  { intros l. apply Forall_forall. intros p Hp. apply filter_In in Hp.
    destruct Hp as [_ Hp]. now apply Nat.ltb_lt in Hp. }
  split.
  - intros out H. apply drop_empty_partitions_Ok in H. destruct H as [<- Hne].
    apply drop_empty_partitions_Ok. split; [|assumption].
    apply Hfix, Hall.
  - rewrite drop_empty_partitions_Ok. split.
    + intros [H Hne]. split; [assumption|]. rewrite <- H. apply Hall.
    + intros [Hne H]. split; [now apply Hfix | assumption].
Qed.

(** X3. When every partition is empty, and only then,
    [drop_empty_partitions] returns no frame: it raises [IndexError]; it
    raises nothing else. *)
Theorem drop_empty_partitions_all_empty (df : list P) :
  (drop_empty_partitions len df = Raise IndexError <->
   Forall (fun p => len p = 0%nat) df) /\
  (forall e, drop_empty_partitions len df = Raise e -> e = IndexError).
Proof.
  split.
  - rewrite drop_empty_partitions_Raise, filter_nonempty_nil. tauto.
  - intros e H. now apply drop_empty_partitions_Raise in H.
Qed.

End PartitionFacts.

(** Partitions that are lists of rows: no row is lost, none moves. *)
Lemma concat_drop_empty_partitions {A : Type} (df out : list (list A)) :
  drop_empty_partitions (@List.length A) df = Ok out ->
  List.concat out = List.concat df.
Proof.
  intros H. apply drop_empty_partitions_Ok in H. destruct H as [<- _].
  induction df as [|p df IH]; simpl; [reflexivity|].
  destruct p as [|a p]; simpl; [exact IH|]. now rewrite IH.
Qed.

(** ** Queries *)

Section QueryFacts.

Implicit Types (r : row) (c : cond) (df : list (list row)).

Lemma eval_join_and (frags : list cond) c r :
  join_and frags = Some c -> eval r c = forallb (eval r) frags.
Proof.
  revert c. induction frags as [|f frags IH]; intros c; simpl; [discriminate|].
  destruct frags as [|g frags].
  - intros [= <-]. simpl. now rewrite andb_true_r.
  - destruct (join_and (g :: frags)) as [c'|] eqn:J; simpl; [|discriminate].
    intros [= <-]. simpl. f_equal. now apply IH.
Qed.

Lemma filter_outliers_spec df :
  filter_outliers df = Ok (map (filter passes) df).
Proof.
  unfold filter_outliers.
  destruct (join_and query_frags) as [c|] eqn:J; [|discriminate J].
  unfold query. f_equal. apply map_ext. intros p. apply filter_ext.
  intros r. now apply eval_join_and.
Qed.

Lemma In_filter_outliers df out r :
  filter_outliers df = Ok out ->
  In r (List.concat out) <-> In r (List.concat df) /\ passes r = true.
Proof.
  rewrite filter_outliers_spec. intros [= <-].
  rewrite concat_filter_map, filter_In. reflexivity.
Qed.

End QueryFacts.

Section OutlierFacts.

Implicit Types (r : row) (df : list (list row)).
Local Open Scope Q_scope.

Lemma Qltb_lt (x y : Q) : Qltb x y = true <-> x < y.
Proof.
  unfold Qltb. rewrite negb_true_iff. split.
  - intros H. apply Qnot_le_lt. intros Hle. apply Qle_bool_iff in Hle. congruence.
  - intros H. destruct (Qle_bool y x) eqn:Hle; [|reflexivity].
    apply Qle_bool_iff in Hle. lra.
Qed.

Lemma Qle_bool_false (x y : Q) : Qle_bool x y = false <-> y < x.
Proof.
  split.
  - intros H. apply Qnot_le_lt. intros Hle. apply Qle_bool_iff in Hle. congruence.
  - intros H. destruct (Qle_bool x y) eqn:Hle; [|reflexivity].
    apply Qle_bool_iff in Hle. lra.
Qed.

(** What passing the filter says of a row, fragment by fragment. *)
Lemma passes_iff r :
  passes r = true <->
  (1 < r "fare_amount"%string /\ r "fare_amount"%string < 500) /\
  (0 < r "passenger_count"%string /\ r "passenger_count"%string < 6) /\
  (-75 < r "pickup_longitude"%string /\ r "pickup_longitude"%string < -73) /\
  (-75 < r "dropoff_longitude"%string /\ r "dropoff_longitude"%string < -73) /\
  (40 < r "pickup_latitude"%string /\ r "pickup_latitude"%string < 42) /\
  (40 < r "dropoff_latitude"%string /\ r "dropoff_latitude"%string < 42) /\
  (0 < r "trip_distance"%string /\ r "trip_distance"%string < 500) /\
  ~ (50 < r "trip_distance"%string /\ r "fare_amount"%string < 50) /\
  ~ (r "trip_distance"%string < 10 /\ 300 < r "fare_amount"%string) /\
  r "pickup_datetime"%string < r "dropoff_datetime"%string.
Proof.
  unfold passes, query_frags. cbn [forallb eval eval_term].
  assert (G : forall a b : bool, a && b = false <-> ~ (a = true /\ b = true)).
  { intros [] []; simpl; intuition congruence. }
  rewrite !andb_true_iff, !negb_true_iff, !G, !Qltb_lt, Qle_bool_false.
  unfold inject_Z. tauto.
Qed.

(** X4. No row that holds the fill value -1 in the fare, the passenger
    count, the trip distance or one of the four coordinates comes through
    the outlier filter. *)
Theorem filter_outliers_drops_sentinels df out r col :
  filter_outliers df = Ok out -> In r (List.concat out) ->
  In col [ "fare_amount"; "passenger_count"; "trip_distance"; "pickup_longitude";
           "pickup_latitude"; "dropoff_longitude"; "dropoff_latitude" ]%string ->
  ~ r col == -1.
Proof.
  intros H Hin Hcol Heq.
  apply (In_filter_outliers _ _ r H) in Hin. destruct Hin as [_ Hp].
  apply passes_iff in Hp.
  simpl in Hcol.
  repeat (destruct Hcol as [<- | Hcol]; [lra|]). exact Hcol.
Qed.

(** X5. A row that comes through the filter still does when its pick-up
    time is the fill value -1, as long as its drop-off time is later than
    that: the filter does not throw out a missing pick-up time. *)
Theorem filter_outliers_keeps_missing_pickup df out r df' out' :
  filter_outliers df = Ok out -> In r (List.concat out) ->
  -1 < r "dropoff_datetime"%string ->
  filter_outliers df' = Ok out' ->
  In (with_col r "pickup_datetime" (-1)) (List.concat df') ->
  In (with_col r "pickup_datetime" (-1)) (List.concat out').
Proof.
  intros H Hin Hd H' Hin'.
  apply (In_filter_outliers _ _ r H) in Hin. destruct Hin as [_ Hp].
  apply (In_filter_outliers _ _ _ H'). split; [assumption|].
  apply passes_iff in Hp. apply passes_iff.
  unfold with_col. cbn [String.eqb Ascii.eqb Bool.eqb]. cbv beta iota.
  tauto.
Qed.

(** X6. Whether a row comes through the filter depends on nine of its
    columns only; the rate code, fill value or not, is not looked at. *)
Theorem filter_outliers_reads_nine_columns df out r df' out' r' :
  (forall col, In col filter_columns -> r' col == r col) ->
  filter_outliers df = Ok out -> In r (List.concat out) ->
  filter_outliers df' = Ok out' -> In r' (List.concat df') ->
  In r' (List.concat out').
Proof.
  intros Hsame H Hin H' Hin'.
  apply (In_filter_outliers _ _ r H) in Hin. destruct Hin as [_ Hp].
  apply (In_filter_outliers _ _ _ H'). split; [assumption|].
  apply passes_iff in Hp. apply passes_iff.
  assert (Hc : forall col, In col filter_columns -> r' col == r col) by exact Hsame.
  assert (Hall : Forall (fun col => r' col == r col) filter_columns).
  { apply Forall_forall. exact Hc. }
  unfold filter_columns in Hall.
  repeat match goal with
         | H : Forall _ (_ :: _) |- _ => inversion H; clear H; subst
         end.
  destruct Hp as (P1 & P2 & P3 & P4 & P5 & P6 & P7 & P8 & P9 & P10).
  repeat split; lra.
Qed.

End OutlierFacts.

(** ** Training rows and held-out rows *)

Section SplitFacts.

Implicit Types (r : row) (df : list (list row)).

Lemma concat_query c df :
  List.concat (query c df) = filter (fun r => eval r c) (List.concat df).
Proof. unfold query. apply concat_filter_map. Qed.

Lemma Permutation_filter_negb {A : Type} (p : A -> bool) (l : list A) :
  Permutation (filter p l ++ filter (fun x => negb (p x)) l) l.
Proof.
  induction l as [|a l IH]; simpl; [constructor|].
  destruct (p a); simpl.
  - now constructor.
  - apply Permutation_sym, Permutation_cons_app. now apply Permutation_sym.
Qed.

Lemma eval_day_split r :
  eval r (Less (Col "day") (Num 25)) = negb (eval r (AtLeast (Col "day") (Num 25))).
Proof. reflexivity. Qed.

(** X7. When the test frame is built, the training rows and the held-out
    rows together are the rows of the frame, each row on one side only:
    no row is both trained on and tested on, and none is left out. *)
Theorem train_test_split df test :
  X_test df = Ok test ->
  Permutation (List.concat (X_train df) ++ List.concat test) (List.concat df) /\
  (forall r, In r (List.concat (X_train df)) -> ~ In r (List.concat test)).
Proof.
  unfold X_train, X_test. intros H.
  rewrite (concat_drop_empty_partitions _ _ H), !concat_query. split.
  - rewrite (filter_ext _ _ eval_day_split).
    rewrite Permutation_app_comm. apply Permutation_filter_negb.
  - intros r H1 H2. apply filter_In in H1, H2.
    destruct H1 as [_ H1], H2 as [_ H2].
    rewrite eval_day_split, H2 in H1. discriminate.
Qed.

(** X8. The test frame is built when some row is of day 25 or later, and
    building it raises [IndexError] when none is.  When it is built, it
    has no empty partition, no more partitions than the frame it is cut
    from, and its rows are the rows of day 25 and later, in the order they
    had. *)
Theorem X_test_partitions df :
  ((exists r, In r (List.concat df) /\ Qle_bool 25 (r "day") = true) ->
   exists test, X_test df = Ok test) /\
  ((forall r, In r (List.concat df) -> Qle_bool 25 (r "day") = false) ->
   X_test df = Raise IndexError) /\
  (forall test, X_test df = Ok test ->
     Forall (fun p => p <> []) test /\
     (List.length test <= List.length df)%nat /\
     List.concat test = filter (fun r => Qle_bool 25 (r "day")) (List.concat df)).
Proof.
  unfold X_test. split; [|split].
  - intros (r & Hin & Hr).
    apply drop_empty_partitions_returns.
    apply Exists_exists. apply in_concat in Hin. destruct Hin as (p & Hp & Hrp).
    exists (filter (fun r => eval r (AtLeast (Col "day") (Num 25))) p). split.
    + unfold query. now apply in_map.
    + assert (Hf : In r (filter (fun r => eval r (AtLeast (Col "day") (Num 25))) p)).
      { apply filter_In. split; assumption. }
      destruct (filter _ p); [destruct Hf | simpl; lia].
  - intros Hnone.
    apply drop_empty_partitions_Raise. split; [|reflexivity].
    apply filter_nonempty_nil.
    apply Forall_forall. intros q Hq. unfold query in Hq.
    apply in_map_iff in Hq. destruct Hq as (p & <- & Hp).
    destruct (filter _ p) as [|r l] eqn:Hf; [reflexivity|].
    assert (Hr : In r (filter (fun r => eval r (AtLeast (Col "day") (Num 25))) p))
      by (rewrite Hf; now left).
    apply filter_In in Hr. destruct Hr as [Hin Hr].
    change (Qle_bool 25 (r "day") = true) in Hr.
    rewrite (Hnone r) in Hr; [discriminate|].
    apply in_concat. now exists p.
  - intros test H. split; [|split].
    + apply drop_empty_partitions_Ok in H. destruct H as [<- _].
      apply Forall_forall.
      intros p Hp. apply filter_In in Hp. destruct Hp as [_ Hp].
      intros ->. discriminate.
    + apply drop_empty_partitions_Ok in H. destruct H as [<- _].
      etransitivity; [apply filter_length_le|].
      unfold query. now rewrite length_map.
    + rewrite (concat_drop_empty_partitions _ _ H), concat_query. reflexivity.
Qed.

End SplitFacts.

(** ** Month names *)

Section MonthFacts.

Lemma below_100 (p : nat -> bool) :
  forallb p (seq 0 100) = true -> forall x, (x < 100)%nat -> p x = true.
Proof.
  intros H x Hx. rewrite forallb_forall in H. apply H.
  apply in_seq. lia.
Qed.

(** X9. For a number below 100, [str(x).rjust(2, '0')] has two
    characters and reads back as the number. *)
Theorem month_name_two_digits (x : nat) :
  (x < 100)%nat ->
  String.length (month_name x) = 2%nat /\ int_of (month_name x) = Some x.
Proof.
  intros Hx.
  pose (p := fun x => ((String.length (month_name x) =? 2)%nat
                       && match int_of (month_name x) with
                          | Some y => (y =? x)%nat
                          | None => false
                          end)%bool).
  assert (H : p x = true).
  { apply (below_100 p); [vm_compute; reflexivity | assumption]. }
  unfold p in H.
  cbv beta in H. apply andb_true_iff in H. destruct H as [H1 H2].
  apply Nat.eqb_eq in H1. split; [assumption|].
  destruct (int_of (month_name x)) as [y|]; [|discriminate].
  apply Nat.eqb_eq in H2. now subst.
Qed.

Lemma append_inj_l (p a b : string) : (p ++ a = p ++ b)%string -> a = b.
Proof.
  induction p as [|c p IH]; simpl; [tauto|]. intros [= H]. now apply IH.
Qed.

(** X10. The six file names are pairwise different, whatever the base
    path. *)
Theorem valid_files_distinct (base_path : string) :
  NoDup (valid_files base_path) /\ List.length (valid_files base_path) = 6%nat.
Proof.
  split; [|reflexivity].
  unfold valid_files.
  assert (H : NoDup (map (fun month => ("2016/yellow_tripdata_2016-" ++ month ++ ".csv")%string)
                         months)).
  { vm_compute. repeat constructor; simpl; intuition discriminate. }
  rewrite <- (map_map (fun month => ("2016/yellow_tripdata_2016-" ++ month ++ ".csv")%string)
                      (fun name => (base_path ++ name)%string)).
  apply Finite.Injective_map_NoDup; [|exact H].
  intros a b. apply append_inj_l.
Qed.

End MonthFacts.

(** ** Features and target *)

Lemma uniq_of_NoDup (l : list string) : NoDup l -> uniq l = l.
Proof.
  induction l as [|k l IH] using rev_ind; [reflexivity|].
  intros H. rewrite uniq_snoc.
  apply NoDup_remove in H. rewrite app_nil_r in H. destruct H as [Hl Hk].
  rewrite IH by assumption. now apply add_key_not_In.
Qed.

Section SortFacts.

(** The order of [sort_names]. *)
Let R (a b : string) : Prop := String.leb a b = true.

Lemma leb_not_Gt (a b : string) : String.leb a b = true <-> String.compare a b <> Datatypes.Gt.
Proof.
  unfold String.leb. destruct (String.compare a b); split; congruence.
Qed.

Lemma ascii_compare_refl (x : ascii) : Ascii.compare x x = Datatypes.Eq.
Proof. unfold Ascii.compare. apply N.compare_refl. Qed.

Lemma leb_trans (a b c : string) :
  String.leb a b = true -> String.leb b c = true -> String.leb a c = true.
Proof.
  rewrite !leb_not_Gt. revert b c.
  induction a as [|x a IH]; intros [|y b] [|z c]; simpl; try congruence.
  destruct (Ascii.compare x y) eqn:Hxy; try congruence;
    destruct (Ascii.compare y z) eqn:Hyz; try congruence.
  - apply Ascii.compare_eq_iff in Hxy, Hyz. subst.
    rewrite ascii_compare_refl. apply IH.
  - apply Ascii.compare_eq_iff in Hxy. subst. rewrite Hyz. congruence.
  - apply Ascii.compare_eq_iff in Hyz. subst. rewrite Hxy. congruence.
  - assert (H : Ascii.compare x z = Datatypes.Lt).
    { unfold Ascii.compare in Hxy, Hyz |- *.
      apply N.compare_lt_iff. apply N.compare_lt_iff in Hxy. apply N.compare_lt_iff in Hyz.
      eapply N.lt_trans; eassumption. }
    rewrite H. congruence.
Qed.

Lemma In_insert_sorted (k x : string) (l : list string) :
  In x (insert_sorted k l) <-> x = k \/ In x l.
Proof.
  induction l as [|y l IH]; simpl; [intuition congruence|].
  destruct (String.leb k y); simpl; [intuition congruence|].
  rewrite IH. intuition congruence.
Qed.

Lemma In_sort_names (x : string) (l : list string) :
  In x (sort_names l) <-> In x l.
Proof.
  induction l as [|k l IH]; simpl; [reflexivity|].
  rewrite In_insert_sorted, IH. intuition congruence.
Qed.

Lemma insert_sorted_sorted (k : string) (l : list string) :
  StronglySorted R l -> StronglySorted R (insert_sorted k l).
Proof.
  induction 1 as [|y l Hs IH Hy]; simpl.
  - repeat constructor.
  - destruct (String.leb k y) eqn:Hk.
    + constructor; [now constructor|].
      constructor; [exact Hk|].
      apply Forall_forall. intros z Hz. rewrite Forall_forall in Hy.
      apply (leb_trans k y z); [exact Hk | now apply Hy].
    + constructor; [exact IH|].
      apply Forall_forall. intros z Hz. apply In_insert_sorted in Hz.
      destruct Hz as [-> | Hz].
      * destruct (String.leb_total k y) as [H|H]; [congruence | exact H].
      * rewrite Forall_forall in Hy. now apply Hy.
Qed.

Lemma sort_names_sorted (l : list string) : StronglySorted R (sort_names l).
Proof.
  induction l as [|k l IH]; simpl; [constructor|]. now apply insert_sorted_sorted.
Qed.

Lemma NoDup_insert_sorted (k : string) (l : list string) :
  ~ In k l -> NoDup l -> NoDup (insert_sorted k l).
Proof.
  induction l as [|y l IH]; simpl; intros Hk Hl.
  - repeat constructor. tauto.
  - destruct (String.leb k y).
    + constructor; [simpl; tauto | assumption].
    + inversion Hl; subst. constructor.
      * rewrite In_insert_sorted. intuition congruence.
      * apply IH; tauto.
Qed.

Lemma NoDup_sort_names (l : list string) : NoDup l -> NoDup (sort_names l).
Proof.
  induction 1 as [|k l Hk _ IH]; simpl; [constructor|].
  apply NoDup_insert_sorted; [now rewrite In_sort_names | assumption].
Qed.

(** Two sorted lists without repetition that hold the same names are the
    same list. *)
Lemma sorted_unique (l1 : list string) : forall l2,
  StronglySorted R l1 -> StronglySorted R l2 -> NoDup l1 -> NoDup l2 ->
  (forall x, In x l1 <-> In x l2) -> l1 = l2.
Proof.
  induction l1 as [|a l1 IH]; intros [|b l2] S1 S2 N1 N2 Hsame.
  - reflexivity.
  - exfalso. apply (proj2 (Hsame b)). now left.
  - exfalso. apply (proj1 (Hsame a)). now left.
  - inversion S1 as [|? ? S1' F1]; inversion S2 as [|? ? S2' F2]; subst.
    inversion N1 as [|? ? Na N1']; inversion N2 as [|? ? Nb N2']; subst.
    rewrite Forall_forall in F1, F2.
    assert (Hab : a = b).
    { destruct (proj1 (Hsame a) (or_introl eq_refl)) as [Hb | Hb]; [congruence|].
      destruct (proj2 (Hsame b) (or_introl eq_refl)) as [Ha | Ha]; [congruence|].
      apply String.leb_antisym; [now apply F1 | now apply F2]. }
    subst b. f_equal. apply IH; try assumption.
    intros x. split; intros Hx.
    + destruct (proj1 (Hsame x) (or_intror Hx)) as [-> | H]; tauto.
    + destruct (proj2 (Hsame x) (or_intror Hx)) as [-> | H]; tauto.
Qed.

Lemma In_difference (index other : list string) (k : string) :
  In k (difference index other) <-> In k index /\ ~ In k other.
Proof.
  unfold difference. destruct other as [|o other].
  { rewrite In_uniq. simpl. tauto. }
  rewrite In_sort_names, filter_In, nodup_In, negb_true_iff.
  assert (H : existsb (String.eqb k) (o :: other) = false <-> ~ In k (o :: other)).
  { split.
    - intros Hf Hin. assert (Ht : existsb (String.eqb k) (o :: other) = true).
      { apply existsb_exists. exists k. split; [assumption | apply String.eqb_refl]. }
      congruence.
    - intros Hn. destruct (existsb (String.eqb k) (o :: other)) eqn:Ex; [|reflexivity].
      apply existsb_exists in Ex. destruct Ex as (x & Hx & Heq).
      apply String.eqb_eq in Heq. now subst. }
  now rewrite H.
Qed.

Lemma NoDup_difference (index other : list string) : NoDup (difference index other).
Proof.
  unfold difference. destruct other as [|o other]; [apply NoDup_uniq|].
  apply NoDup_sort_names, NoDup_filter, NoDup_nodup.
Qed.

Lemma difference_sorted (index other : list string) :
  other <> [] -> StronglySorted R (difference index other).
Proof.
  unfold difference. destruct other as [|o other]; [congruence|].
  intros _. apply sort_names_sorted.
Qed.


(** X12. With something to take away, the result of [difference] does not
    depend on the order, or on the repetitions, of the names it is given:
    two frames with the same columns get their features in the same
    order. *)
Theorem difference_order_independent (index1 index2 other : list string) :
  other <> [] ->
  (forall k, In k index1 <-> In k index2) ->
  difference index1 other = difference index2 other.
Proof.
  intros Hne Hsame. apply sorted_unique.
  - now apply difference_sorted.
  - now apply difference_sorted.
  - apply NoDup_difference.
  - apply NoDup_difference.
  - intros x. rewrite !In_difference, Hsame. reflexivity.
Qed.

End SortFacts.

Section FeatureFacts.

Context {E : Engine}.
Implicit Types (df X Y : DataFrame) (s : Series) (k col : string).

Lemma getitem_list_present df (cols : list string) :
  (forall c, In c cols -> In c (columns df)) ->
  exists r, getitem_list df cols = Ok r /\ columns r = cols /\
            forall c s, In (c, s) r -> dict_get df c = Some s.
Proof.
  induction cols as [|col cols IH]; intros H; simpl.
  - exists []. repeat split. intros c s [].
  - destruct IH as (r & Hr & Hc & Hs); [intros c Hc; apply H; now right|].
    destruct (proj1 (dict_get_In df col) (H col (or_introl eq_refl))) as [s G].
    unfold getitem. rewrite G. cbn [bind]. rewrite Hr. cbn [bind].
    exists ((col, s) :: r). split; [reflexivity|]. split.
    + unfold columns, keys in *. simpl. now rewrite Hc.
    + intros c s' [[= <- <-] | Hin]; [assumption | now apply Hs].
Qed.

(** X13. Cutting a frame into features and target raises [KeyError] when
    it has no fare column; otherwise the target frame has the fare column
    alone, the feature frame has every other column, each once, in
    increasing order of name, and every series is the one of the frame. *)
Theorem features_target_split X :
  (~ In "fare_amount" (columns X) ->
   features_target X = Raise (KeyError "fare_amount")) /\
  (In "fare_amount" (columns X) ->
   exists Xf Y,
     features_target X = Ok (Xf, Y) /\
     columns Y = ["fare_amount"] /\
     columns Xf = difference (columns X) ["fare_amount"] /\
     ~ In "fare_amount" (columns Xf) /\
     (forall k, k <> "fare_amount" -> In k (columns X) -> In k (columns Xf)) /\
     (forall k s, In (k, s) Xf \/ In (k, s) Y -> dict_get X k = Some s)).
Proof.
  split.
  - intros H. apply dict_get_None in H.
    unfold features_target. simpl. unfold getitem. now rewrite H.
  - intros H.
    destruct (getitem_list_present X ["fare_amount"]) as (Y & HY & CY & SY).
    { intros c [<- | []]. exact H. }
    destruct (getitem_list_present X (difference (columns X) ["fare_amount"]))
      as (Xf & HX & CX & SX).
    { intros c Hc. apply In_difference in Hc. tauto. }
    exists Xf, Y. unfold features_target. rewrite HY. cbn [bind]. rewrite HX. cbn [bind].
    split; [reflexivity|]. split; [assumption|]. split; [assumption|].
    split; [|split].
    + rewrite CX, In_difference. simpl. tauto.
    + intros k Hk Hin. rewrite CX, In_difference. simpl. intuition congruence.
    + intros k s [Hin | Hin]; [now apply SX | now apply SY].
Qed.

End FeatureFacts.

(** ** [haversine_dist] *)

Section HaversineFacts.

Context {E : Engine}.
Variable hd : Series -> Series -> Series -> Series -> result Series.
Implicit Types (f : DataFrame) (h : store) (df : ref) (s : Series) (k : string).

Lemma haversine_dist_inv f f' :
  haversine_dist hd f = Ok f' ->
  exists a b c d x s,
    dict_get f "pickup_longitude" = Some a /\
    dict_get f "pickup_latitude" = Some b /\
    dict_get f "dropoff_longitude" = Some c /\
    dict_get f "dropoff_latitude" = Some d /\
    hd a b c d = Ok x /\ astype x "float32" = Ok s /\
    f' = setitem f "h_distance" s.
Proof.
  unfold haversine_dist, getitem.
  destruct (dict_get f "pickup_longitude") as [a|]; cbn [bind]; [|discriminate].
  destruct (dict_get f "pickup_latitude") as [b|]; cbn [bind]; [|discriminate].
  destruct (dict_get f "dropoff_longitude") as [c|]; cbn [bind]; [|discriminate].
  destruct (dict_get f "dropoff_latitude") as [d|]; cbn [bind]; [|discriminate].
  destruct (hd a b c d) as [x|] eqn:Hx; cbn [bind]; [|discriminate].
  unfold setitem. rewrite dict_get_set_same. cbn [bind].
  destruct (astype x "float32") as [s|] eqn:Hs; cbn [bind]; [|discriminate].
  rewrite dict_set_set. intros [= <-].
  exists a, b, c, d, x, s. repeat split; assumption.
Qed.

Lemma nth_update_other h (r r' : ref) f :
  r <> r' -> nth r' (update h r f) [] = nth r' h [].
Proof.
  revert r r'. induction h as [|g h IH]; intros r r' Hne.
  - destruct r, r'; reflexivity.
  - destruct r, r'; simpl; try congruence; try reflexivity.
    apply IH. congruence.
Qed.

(** X14. [haversine_dist] gives the frame one column, [h_distance], of
    dtype [float32] - last when the frame had none of that name - and
    leaves the series of every other column as it was. *)
Theorem haversine_dist_adds_column f f' :
  haversine_dist hd f = Ok f' ->
  columns f' = add_key (columns f) "h_distance" /\
  (forall k, k <> "h_distance" -> dict_get f' k = dict_get f k) /\
  (exists s, dict_get f' "h_distance" = Some s /\ dtype s = "float32").
Proof.
  intros H. destruct (haversine_dist_inv _ _ H)
    as (a & b & c & d & x & s & _ & _ & _ & _ & _ & Hs & ->).
  unfold setitem, columns. split; [apply keys_set|]. split.
  - intros k Hk. apply dict_get_set_other. congruence.
  - exists s. split; [apply dict_get_set_same | now apply astype_dtype in Hs].
Qed.

(** X15. On the store, [haversine_dist] works in place: it returns the
    reference it was given, allocates nothing, puts the new frame where
    the caller's frame was and touches no other frame. *)
Theorem haversine_dist_m_in_place h df f' :
  (df < List.length h)%nat ->
  haversine_dist hd (nth df h []) = Ok f' ->
  snd (haversine_dist_m hd df h) = Ok df /\
  List.length (fst (haversine_dist_m hd df h)) = List.length h /\
  nth df (fst (haversine_dist_m hd df h)) [] = f' /\
  (forall r, r <> df -> nth r (fst (haversine_dist_m hd df h)) [] = nth r h []).
Proof.
  intros Hlive H. destruct (haversine_dist_inv _ _ H)
    as (a & b & c & d & x & s & Ga & Gb & Gc & Gd & Hx & Hs & ->).
  assert (R : haversine_dist_m hd df h
              = (update h df (setitem (nth df h []) "h_distance" s), Ok df)).
  { assert (Ha : getitem (nth df h []) "pickup_longitude" = Ok a)
      by (unfold getitem; now rewrite Ga).
    assert (Hb : getitem (nth df h []) "pickup_latitude" = Ok b)
      by (unfold getitem; now rewrite Gb).
    assert (Hc : getitem (nth df h []) "dropoff_longitude" = Ok c)
      by (unfold getitem; now rewrite Gc).
    assert (Hd : getitem (nth df h []) "dropoff_latitude" = Ok d)
      by (unfold getitem; now rewrite Gd).
    unfold haversine_dist_m, getitem_m, setitem_m, mbind, raise_of, ret, deref, assign.
    cbv beta iota. rewrite Ha. cbv beta iota. rewrite Hb. cbv beta iota.
    rewrite Hc. cbv beta iota. rewrite Hd. cbv beta iota. rewrite Hx. cbv beta iota.
    rewrite nth_update by exact Hlive. rewrite getitem_setitem. cbv beta iota.
    rewrite Hs. cbv beta iota. unfold setitem.
    now rewrite update_update, dict_set_set. }
  rewrite R. cbn [fst snd]. split; [reflexivity|]. split; [apply length_update|].
  split; [now apply nth_update|].
  intros r Hr. apply nth_update_other. congruence.
Qed.

(** X16. When one of the four coordinate columns is missing,
    [haversine_dist] raises the [KeyError] of the first one missing, in
    the order pick-up longitude, pick-up latitude, drop-off longitude,
    drop-off latitude, and leaves the store as it was. *)
Theorem haversine_dist_m_missing h df :
  let f := nth df h [] in
  (~ In "pickup_longitude" (columns f) ->
   haversine_dist_m hd df h = (h, Raise (KeyError "pickup_longitude"))) /\
  (In "pickup_longitude" (columns f) -> ~ In "pickup_latitude" (columns f) ->
   haversine_dist_m hd df h = (h, Raise (KeyError "pickup_latitude"))) /\
  (In "pickup_longitude" (columns f) -> In "pickup_latitude" (columns f) ->
   ~ In "dropoff_longitude" (columns f) ->
   haversine_dist_m hd df h = (h, Raise (KeyError "dropoff_longitude"))) /\
  (In "pickup_longitude" (columns f) -> In "pickup_latitude" (columns f) ->
   In "dropoff_longitude" (columns f) -> ~ In "dropoff_latitude" (columns f) ->
   haversine_dist_m hd df h = (h, Raise (KeyError "dropoff_latitude"))).
Proof.
  intros f. unfold columns. rewrite <- !dict_get_None, !dict_get_In.
  unfold haversine_dist_m, getitem_m, setitem_m, mbind, raise_of, ret, deref, assign,
    getitem.
  cbv beta iota. fold f.
  repeat split.
  - intros ->. reflexivity.
  - intros [a ->] ->. reflexivity.
  - intros [a ->] [b ->] ->. reflexivity.
  - intros [a ->] [b ->] [c ->] ->. reflexivity.
Qed.

(** X17. [haversine_dist] on a frame it returned returns that frame
    again. *)
Theorem haversine_dist_idempotent f f' :
  haversine_dist hd f = Ok f' -> haversine_dist hd f' = Ok f'.
Proof.
  intros H. destruct (haversine_dist_inv _ _ H)
    as (a & b & c & d & x & s & Ga & Gb & Gc & Gd & Hx & Hs & ->).
  unfold haversine_dist, getitem, setitem.
  rewrite !dict_get_set_other by discriminate.
  rewrite Ga, Gb, Gc, Gd. cbn [bind]. rewrite Hx. cbn [bind].
  rewrite dict_get_set_same. cbn [bind]. rewrite Hs. cbn [bind].
  now rewrite !dict_set_set.
Qed.

End HaversineFacts.

(** ** More on [clean]: rows and column order *)

Section CleanRows.

Context {E : Engine}.
Implicit Types (b f out : DataFrame) (s n : Series) (k : string) (mh : dict string).

Lemma length_cast_cells src tgt (l r : list (option scalar)) :
  cast_cells src tgt l = Some r -> List.length r = List.length l.
Proof.
  revert r. induction l as [|[v|] l IH]; simpl; intros r.
  - now intros [= <-].
  - destruct (cast src tgt v); [|discriminate].
    destruct (cast_cells src tgt l) as [r'|]; [|discriminate].
    intros [= <-]. simpl. f_equal. now apply IH.
  - destruct (cast_cells src tgt l) as [r'|]; [|discriminate].
    intros [= <-]. simpl. f_equal. now apply IH.
Qed.

Lemma length_astype s tgt s' :
  astype s tgt = Ok s' -> List.length (values s') = List.length (values s).
Proof.
  unfold astype. destruct (cast_cells _ _ _) as [r|] eqn:Hr; [|discriminate].
  intros [= <-]. simpl. now apply length_cast_cells in Hr.
Qed.

Lemma length_coerce s s' :
  coerce s = Ok s' -> List.length (values s') = List.length (values s).
Proof.
  unfold coerce. destruct (String.eqb (dtype s) "object").
  - discriminate.
  - destruct (PyStr.contains "int" (dtype s)).
    + destruct (astype s "int32") as [s1|] eqn:H1; cbn [bind]; [|discriminate].
      apply length_astype in H1.
      destruct (PyStr.contains "float" (dtype s1)).
      * destruct (astype s1 "float32") as [s2|] eqn:H2; cbn [bind]; [|discriminate].
        apply length_astype in H2. intros [= <-]. unfold fillna, fill. simpl.
        rewrite length_map. congruence.
      * cbn [bind]. intros [= <-]. unfold fillna, fill. simpl.
        rewrite length_map. congruence.
    + cbn [bind]. destruct (PyStr.contains "float" (dtype s)).
      * destruct (astype s "float32") as [s2|] eqn:H2; cbn [bind]; [|discriminate].
        apply length_astype in H2. intros [= <-]. unfold fillna, fill. simpl.
        rewrite length_map. congruence.
      * cbn [bind]. intros [= <-]. unfold fillna, fill. simpl. apply length_map.
Qed.

(** X18. [clean] neither drops nor adds rows: every series of the batch
    it returns has as many cells as the raw column it comes from, a
    column whose name trims, lower-cases and resolves to its name. *)
Theorem clean_keeps_rows b mh out k s :
  clean b mh = Ok out -> dict_get out k = Some s ->
  exists k0 n,
    In (k0, n) b /\ canonical k0 = k /\
    List.length (values s) = List.length (values n).
Proof.
  intros H G. destruct (clean_inv _ _ _ H) as (f & Hf & Hpr).
  destruct (project_get_inv _ _ _ _ _ Hpr G) as (_ & s0 & G0 & Hc).
  apply length_coerce in Hc.
  destruct (clean_head_inv _ _ Hf)
    as (s1 & s1' & s2 & s2' & G1 & A1 & G2 & A2 & ->).
  apply length_astype in A1, A2. unfold setitem in G0.
  assert (Hraw : forall n, dict_get (renamed b) k = Some n ->
                   List.length (values s0) = List.length (values n) ->
                   exists k0 n0, In (k0, n0) b /\ canonical k0 = k /\
                                 List.length (values s) = List.length (values n0)).
  { intros n Gn Hlen. apply dict_get_Some_In, In_renamed in Gn.
    destruct Gn as (k0 & Hin & Hk0). exists k0, n. repeat split; try assumption.
    congruence. }
  destruct (string_dec k "dropoff_datetime") as [-> | Nd].
  - rewrite dict_get_set_same in G0. injection G0 as <-. now apply (Hraw s2).
  - rewrite dict_get_set_other in G0 by congruence.
    destruct (string_dec k "pickup_datetime") as [-> | Np].
    + rewrite dict_get_set_same in G0. injection G0 as <-. now apply (Hraw s1).
    + rewrite dict_get_set_other in G0 by congruence. now apply (Hraw s0).
Qed.

(** X19. The columns of the batch [clean] returns stand in the order of
    the raw batch, not in the order of the column specification: they are
    the canonical names of the raw columns, in raw order, that the
    specification has. *)
Theorem clean_keeps_column_order b mh out :
  collision_free b -> clean b mh = Ok out ->
  columns out = filter (dict_mem mh) (map canonical (columns b)).
Proof.
  intros Hcf H. rewrite (columns_clean _ _ _ H).
  now rewrite uniq_of_NoDup.
Qed.

End CleanRows.

(** ** The three years together *)

Section PipelineFacts.

Context {E : Engine}.

Implicit Types (p q o : DataFrame) (meta arg : dict string).

Lemma columns_meta_frame meta : columns (meta_frame meta) = keys meta.
Proof. unfold columns, keys, meta_frame. rewrite map_map. reflexivity. Qed.

(** What [map_partitions] makes of one partition that [f] returns [o]
    for. *)
Lemma apply_and_enforce_inv f arg meta p q :
  apply_and_enforce f arg meta p = Ok q <->
  exists o, f p arg = Ok o /\
            ((nrows o = 0%nat /\ q = meta_frame meta) \/
             (nrows o <> 0%nat /\ columns o = keys meta /\ q = o)).
Proof.
  unfold apply_and_enforce. destruct (f p arg) as [o|e]; cbn [bind].
  - destruct (nrows o =? 0)%nat eqn:Hn.
    + apply Nat.eqb_eq in Hn. split.
      * intros [= <-]. exists o. tauto.
      * intros (o' & [= <-] & [[_ ->] | [H _]]); [reflexivity | contradiction].
    + apply Nat.eqb_neq in Hn.
      destruct (list_eq_dec string_dec (columns o) (keys meta)) as [Hc|Hc].
      * split.
        -- intros [= <-]. exists o. tauto.
        -- intros (o' & [= <-] & [[H _] | (_ & _ & ->)]); [contradiction | reflexivity].
      * split; [discriminate|].
        intros (o' & [= <-] & [[H _] | (_ & H & _)]); contradiction.
  - split; [discriminate|]. now intros (o & [=] & _).
Qed.

Lemma map_partitions_Forall2 f arg meta (df out : list DataFrame) :
  map_partitions f arg meta df = Ok out <->
  Forall2 (fun p q => apply_and_enforce f arg meta p = Ok q) df out.
Proof.
  revert out. induction df as [|p df IH]; intros out; simpl.
  - split; [intros [= <-]; constructor | intros H; now inversion H].
  - split.
    + destruct (apply_and_enforce f arg meta p) as [q|] eqn:Hq; cbn [bind]; [|discriminate].
      destruct (map_partitions f arg meta df) as [r|] eqn:Hr; cbn [bind]; [|discriminate].
      intros [= <-]. constructor; [assumption | now apply IH].
    + intros H. inversion H as [|? q ? r Hq Hr]; subst.
      rewrite Hq. cbn [bind]. apply IH in Hr. now rewrite Hr.
Qed.

Lemma map_partitions_returns f arg meta (df : list DataFrame) :
  (exists out, map_partitions f arg meta df = Ok out) <->
  Forall (fun p => exists q, apply_and_enforce f arg meta p = Ok q) df.
Proof.
  induction df as [|p df IH]; simpl.
  - split; [constructor | eauto].
  - split.
    + intros [out H].
      destruct (apply_and_enforce f arg meta p) as [q|] eqn:Hq; cbn [bind] in H;
        [|discriminate].
      destruct (map_partitions f arg meta df) as [r|] eqn:Hr; cbn [bind] in H;
        [|discriminate].
      constructor; [eauto | apply IH; eauto].
    + intros H. inversion H as [|? ? [q Hq] Hdf]; subst.
      apply IH in Hdf. destruct Hdf as [r Hr]. rewrite Hq, Hr. cbn [bind]. eauto.
Qed.

Lemma Forall2_In_left {A B : Type} (R : A -> B -> Prop) (l : list A) (l' : list B) x :
  Forall2 R l l' -> In x l -> exists y, In y l' /\ R x y.
Proof.
  induction 1 as [|a b l l' Hab _ IH]; simpl; [tauto|].
  intros [<- | Hx]; [eauto|]. destruct (IH Hx) as (y & Hy & Hxy). eauto.
Qed.

Lemma Forall2_In_right {A B : Type} (R : A -> B -> Prop) (l : list A) (l' : list B) y :
  Forall2 R l l' -> In y l' -> exists x, In x l /\ R x y.
Proof.
  induction 1 as [|a b l l' Hab _ IH]; simpl; [tauto|].
  intros [<- | Hy]; [eauto|]. destruct (IH Hy) as (x & Hx & Hxy). eauto.
Qed.

(** What [clean] returns for [must_haves] has columns, so that [nrows]
    is its number of rows. *)
Lemma clean_must_haves_columns p o : clean p must_haves = Ok o -> o <> [].
Proof.
  intros H.
  destruct (clean_get_timestamp p must_haves o "pickup_datetime" H (or_introl eq_refl))
    as [Hex _].
  destruct (Hex eq_refl) as (s & G & _). intros ->. discriminate.
Qed.

(** X20. The frame of the three years exists exactly when, on every
    partition of every year, [clean] returns a batch that is empty or has
    the keys of [must_haves] as its columns, name by name and in that
    order.  It then has one partition for each raw partition, in the order
    2014, 2015, 2016: the cleaned raw partition, or the empty frame of
    [must_haves] where that is empty.  Every partition has the keys of
    [must_haves] as its columns, in that order, and no null; and its
    timestamp columns are [datetime64[ms]] series unless it is that empty
    frame, which has them as [datetime64[s]]. *)
Theorem taxi_df_partitions (df_2014 df_2015 df_2016 : list DataFrame) :
  ((exists out, taxi_df df_2014 df_2015 df_2016 = Ok out) <->
   Forall (fun p => exists o, clean p must_haves = Ok o /\
                              (nrows o = 0%nat \/ columns o = keys must_haves))
          (df_2014 ++ df_2015 ++ df_2016)) /\
  (forall out, taxi_df df_2014 df_2015 df_2016 = Ok out ->
     Forall2 (fun p q => exists o, clean p must_haves = Ok o /\
                                   ((nrows o = 0%nat /\ q = meta_frame must_haves) \/
                                    (nrows o <> 0%nat /\ q = o)))
             (df_2014 ++ df_2015 ++ df_2016) out /\
     Forall (fun q =>
               columns q = keys must_haves /\
               (forall k s, In (k, s) q -> no_nulls s) /\
               (forall k s, k = "pickup_datetime" \/ k = "dropoff_datetime" ->
                  dict_get q k = Some s ->
                  dtype s = "datetime64[ms]" \/
                  (q = meta_frame must_haves /\ dtype s = "datetime64[s]")))
            out).
Proof.
  assert (Hinv : forall out, taxi_df df_2014 df_2015 df_2016 = Ok out ->
            Forall2 (fun p q => apply_and_enforce clean must_haves must_haves p = Ok q)
                    (df_2014 ++ df_2015 ++ df_2016) out).
  { intros out. unfold taxi_df.
    destruct (map_partitions _ _ _ df_2014) as [o1|] eqn:H1; cbn [bind]; [|discriminate].
    destruct (map_partitions _ _ _ df_2015) as [o2|] eqn:H2; cbn [bind]; [|discriminate].
    destruct (map_partitions _ _ _ df_2016) as [o3|] eqn:H3; cbn [bind]; [|discriminate].
    intros [= <-]. simpl. rewrite app_nil_r.
    apply map_partitions_Forall2 in H1, H2, H3.
    repeat apply Forall2_app; assumption. }
  split; [split|].
  - intros [out H]. apply Hinv in H.
    apply Forall_forall. intros p Hp.
    destruct (Forall2_In_left _ _ _ _ H Hp) as (q & _ & Hq).
    apply apply_and_enforce_inv in Hq. destruct Hq as (o & Ho & Hq).
    exists o. tauto.
  - intros H.
    assert (H' : Forall (fun p => exists q,
                           apply_and_enforce clean must_haves must_haves p = Ok q)
                        (df_2014 ++ df_2015 ++ df_2016)).
    { eapply Forall_impl; [|exact H]. intros p (o & Ho & Hq).
      destruct (Nat.eq_dec (nrows o) 0) as [Hn|Hn].
      - exists (meta_frame must_haves). apply apply_and_enforce_inv. exists o. tauto.
      - exists o. apply apply_and_enforce_inv. exists o. tauto. }
    rewrite !Forall_app in H'. destruct H' as (F1 & F2 & F3).
    apply map_partitions_returns in F1, F2, F3.
    destruct F1 as [o1 H1], F2 as [o2 H2], F3 as [o3 H3].
    unfold taxi_df. rewrite H1, H2, H3. cbn [bind]. eauto.
  - intros out H. specialize (Hinv out H). split.
    + eapply Forall2_impl; [|exact Hinv]. intros p q Hq.
      apply apply_and_enforce_inv in Hq. destruct Hq as (o & Ho & Hq).
      exists o. tauto.
    + apply Forall_forall. intros q Hq.
      destruct (Forall2_In_right _ _ _ _ Hinv Hq) as (p & _ & Hp).
      apply apply_and_enforce_inv in Hp.
      destruct Hp as (o & Ho & [[_ ->] | (_ & Hc & ->)]).
      * split; [apply columns_meta_frame|]. split.
        -- intros k s Hin. unfold meta_frame in Hin. apply in_map_iff in Hin.
           destruct Hin as ([k' d] & [= <- <-] & _). constructor.
        -- intros k s Hk G. right. split; [reflexivity|].
           destruct Hk as [-> | ->]; cbn in G; now injection G as <-.
      * split; [assumption|]. split.
        -- intros k s Hin. destruct (clean_inv _ _ _ Ho) as (f & _ & Hpr).
           destruct (project_In _ _ _ _ _ Hpr Hin) as (_ & s0 & _ & Hc0).
           eapply coerce_no_nulls; eassumption.
        -- intros k s Hk G. left.
           destruct (clean_get_timestamp p must_haves o k Ho Hk) as [_ T].
           now apply T.
Qed.

End PipelineFacts.

(** ** The rest of the notebook on samples *)

Section OnMoreSamples.

Import Sample SampleTrips.

Lemma NoDup_by_nodup (l : list string) : nodup string_dec l = l -> NoDup l.
Proof. intros H. rewrite <- H. apply NoDup_nodup. Qed.

Lemma drop_empty_partitions_rows_witness :
  drop_empty_partitions (@List.length nat) [[1; 2]; []; [3]]%nat = Ok [[1; 2]; [3]]%nat /\
  [[1; 2]; [3]]%nat <> [] /\
  Forall (fun p => (0 < List.length p)%nat) [[1; 2]; [3]]%nat /\
  list_sum (map (@List.length nat) [[1; 2]; [3]]%nat)
  = list_sum (map (@List.length nat) [[1; 2]; []; [3]]%nat).
Proof.
  split; [reflexivity|].
  apply (proj2 (drop_empty_partitions_rows (@List.length nat) [[1; 2]; []; [3]]%nat)).
  reflexivity.
Defined.

Lemma drop_empty_partitions_idempotent_witness :
  drop_empty_partitions (@List.length nat) [[1; 2]; []; [3]]%nat = Ok [[1; 2]; [3]]%nat /\
  drop_empty_partitions (@List.length nat) [[1; 2]; [3]]%nat = Ok [[1; 2]; [3]]%nat.
Proof.
  split; [reflexivity|].
  apply (proj1 (drop_empty_partitions_idempotent (@List.length nat) [[1; 2]; []; [3]]%nat)).
  reflexivity.
Defined.

Lemma drop_empty_partitions_all_empty_witness :
  drop_empty_partitions (@List.length nat) [[]; []] = Raise IndexError.
Proof.
  apply (proj1 (drop_empty_partitions_all_empty (@List.length nat) [[]; []])).
  repeat constructor.
Defined.

Lemma train_test_split_witness :
  X_test [[good_trip; late_trip]; [good_trip]] = Ok [[late_trip]] /\
  Permutation
    (List.concat (X_train [[good_trip; late_trip]; [good_trip]]) ++ List.concat [[late_trip]])
    (List.concat [[good_trip; late_trip]; [good_trip]]) /\
  (forall r, In r (List.concat (X_train [[good_trip; late_trip]; [good_trip]])) ->
             ~ In r (List.concat [[late_trip]])).
Proof.
  assert (H : X_test [[good_trip; late_trip]; [good_trip]] = Ok [[late_trip]]).
  { vm_compute. reflexivity. }
  split; [exact H|].
  exact (train_test_split [[good_trip; late_trip]; [good_trip]] [[late_trip]] H).
Defined.

Lemma X_test_partitions_witness :
  (exists test, X_test [[good_trip; late_trip]; [good_trip]] = Ok test) /\
  X_test [[good_trip]; [good_trip]] = Raise IndexError.
Proof.
  split.
  - apply (proj1 (X_test_partitions [[good_trip; late_trip]; [good_trip]])).
    exists late_trip. split; [simpl; tauto | vm_compute; reflexivity].
  - apply (proj1 (proj2 (X_test_partitions [[good_trip]; [good_trip]]))).
    intros r [<- | [<- | []]]; vm_compute; reflexivity.
Defined.


Lemma taxi_df_partitions_witness :
  taxi_df [batch_2014; batch_short] [batch_2015] []
  = Raise ValueError /\
  taxi_df [batch_2014] [batch_2015] [batch_empty]
  = Ok [cleaned batch_2014; cleaned batch_2015; meta_frame must_haves] /\
  Forall (fun q =>
            columns q = keys must_haves /\
            (forall k s, In (k, s) q -> no_nulls s) /\
            (forall k s, k = "pickup_datetime" \/ k = "dropoff_datetime" ->
               dict_get q k = Some s ->
               dtype s = "datetime64[ms]" \/
               (q = meta_frame must_haves /\ dtype s = "datetime64[s]")))
         [cleaned batch_2014; cleaned batch_2015; meta_frame must_haves].
Proof.
  split; [vm_compute; reflexivity|].
  assert (H : taxi_df [batch_2014] [batch_2015] [batch_empty]
              = Ok [cleaned batch_2014; cleaned batch_2015; meta_frame must_haves]).
  { vm_compute. reflexivity. }
  split; [exact H|].
  exact (proj2 (proj2 (taxi_df_partitions [batch_2014] [batch_2015] [batch_empty]) _ H)).
Defined.

Lemma filter_outliers_drops_sentinels_witness :
  filter_outliers [[good_trip]] = Ok [[good_trip]] /\
  ~ (good_trip "fare_amount" == -1)%Q.
Proof.
  assert (H : filter_outliers [[good_trip]] = Ok [[good_trip]]).
  { vm_compute. reflexivity. }
  split; [exact H|].
  apply (filter_outliers_drops_sentinels [[good_trip]] [[good_trip]] good_trip "fare_amount" H).
  - simpl. left. reflexivity.
  - left. reflexivity.
Defined.

Lemma filter_outliers_keeps_missing_pickup_witness :
  filter_outliers [[with_col good_trip "pickup_datetime" (-1)]]
  = Ok [[with_col good_trip "pickup_datetime" (-1)]] /\
  In (with_col good_trip "pickup_datetime" (-1))
     (List.concat [[with_col good_trip "pickup_datetime" (-1)]]).
Proof.
  assert (H : filter_outliers [[with_col good_trip "pickup_datetime" (-1)]]
              = Ok [[with_col good_trip "pickup_datetime" (-1)]]).
  { vm_compute. reflexivity. }
  split; [exact H|].
  apply (filter_outliers_keeps_missing_pickup [[good_trip]] [[good_trip]] good_trip
           [[with_col good_trip "pickup_datetime" (-1)]]
           [[with_col good_trip "pickup_datetime" (-1)]]).
  - vm_compute. reflexivity.
  - simpl. left. reflexivity.
  - vm_compute. reflexivity.
  - exact H.
  - simpl. left. reflexivity.
Defined.

Lemma filter_outliers_reads_nine_columns_witness :
  In (with_col good_trip "rate_code" (-1))
     (List.concat [[with_col good_trip "rate_code" (-1)]]) /\
  filter_outliers [[with_col good_trip "rate_code" (-1)]]
  = Ok [[with_col good_trip "rate_code" (-1)]].
Proof.
  assert (H : filter_outliers [[with_col good_trip "rate_code" (-1)]]
              = Ok [[with_col good_trip "rate_code" (-1)]]).
  { vm_compute. reflexivity. }
  split; [|exact H].
  apply (filter_outliers_reads_nine_columns [[good_trip]] [[good_trip]] good_trip
           [[with_col good_trip "rate_code" (-1)]]
           [[with_col good_trip "rate_code" (-1)]]
           (with_col good_trip "rate_code" (-1))).
  - intros col Hcol. unfold filter_columns in Hcol. simpl in Hcol.
    repeat (destruct Hcol as [<- | Hcol]; [vm_compute; reflexivity|]).
    destruct Hcol.
  - vm_compute. reflexivity.
  - simpl. left. reflexivity.
  - exact H.
  - simpl. left. reflexivity.
Defined.

Lemma month_name_two_digits_witness :
  month_name 6 = "06" /\
  String.length (month_name 6) = 2%nat /\ int_of (month_name 6) = Some 6%nat.
Proof.
  split; [reflexivity|]. apply (month_name_two_digits 6). lia.
Defined.

Lemma difference_order_independent_witness :
  difference ["fare_amount"; "day"; "hour"] ["fare_amount"]
  = difference ["hour"; "fare_amount"; "day"; "hour"] ["fare_amount"] /\
  difference ["fare_amount"; "day"; "hour"] ["fare_amount"] = ["day"; "hour"].
Proof.
  split; [|reflexivity].
  apply (difference_order_independent
           ["fare_amount"; "day"; "hour"] ["hour"; "fare_amount"; "day"; "hour"]
           ["fare_amount"]).
  - discriminate.
  - intros k. simpl. tauto.
Defined.

(** With nothing to take away the order of the index is kept, so that it
    does matter. *)
Example difference_of_nothing :
  difference ["hour"; "day"; "hour"] [] = ["hour"; "day"] /\
  difference ["day"; "hour"] [] = ["day"; "hour"] /\
  difference ["hour"; "day"; "hour"] ["fare_amount"] = ["day"; "hour"].
Proof. repeat split; reflexivity. Qed.

Lemma haversine_dist_adds_column_witness :
  haversine_dist zero_distance (cleaned batch_2015) = Ok with_distance /\
  columns with_distance = add_key (columns (cleaned batch_2015)) "h_distance" /\
  (forall k, k <> "h_distance" ->
     dict_get with_distance k = dict_get (cleaned batch_2015) k) /\
  (exists s, dict_get with_distance "h_distance" = Some s /\ dtype s = "float32").
Proof.
  assert (H : haversine_dist zero_distance (cleaned batch_2015) = Ok with_distance).
  { vm_compute. reflexivity. }
  split; [exact H|].
  exact (haversine_dist_adds_column zero_distance (cleaned batch_2015) with_distance H).
Defined.

Lemma haversine_dist_m_in_place_witness :
  snd (haversine_dist_m zero_distance 0 [cleaned batch_2015]) = Ok 0%nat /\
  List.length (fst (haversine_dist_m zero_distance 0 [cleaned batch_2015]))
  = List.length [cleaned batch_2015] /\
  nth 0 (fst (haversine_dist_m zero_distance 0 [cleaned batch_2015])) [] = with_distance /\
  (forall r, r <> 0%nat ->
     nth r (fst (haversine_dist_m zero_distance 0 [cleaned batch_2015])) []
     = nth r [cleaned batch_2015] []).
Proof.
  apply (haversine_dist_m_in_place zero_distance [cleaned batch_2015] 0 with_distance).
  - simpl. lia.
  - vm_compute. reflexivity.
Defined.

Lemma haversine_dist_idempotent_witness :
  haversine_dist zero_distance (cleaned batch_2015) = Ok with_distance /\
  haversine_dist zero_distance with_distance = Ok with_distance.
Proof.
  assert (H : haversine_dist zero_distance (cleaned batch_2015) = Ok with_distance).
  { vm_compute. reflexivity. }
  split; [exact H|].
  exact (haversine_dist_idempotent zero_distance (cleaned batch_2015) with_distance H).
Defined.

Lemma clean_keeps_rows_witness :
  exists k0 n,
    In (k0, n) batch_short /\ canonical k0 = "passenger_count" /\
    List.length
      (values (mkSeries "int32" [Some (Int 1); Some (Int 2); Some (Int (-1))]))
    = List.length (values n).
Proof.
  apply (clean_keeps_rows batch_short must_haves (cleaned batch_short) "passenger_count").
  - vm_compute. reflexivity.
  - vm_compute. reflexivity.
Defined.

Lemma clean_keeps_column_order_witness :
  clean batch_aliased spec_aliased = Ok (cleaned_by spec_aliased batch_aliased) /\
  columns (cleaned_by spec_aliased batch_aliased)
  = filter (dict_mem spec_aliased) (map canonical (columns batch_aliased)).
Proof.
  assert (H : clean batch_aliased spec_aliased = Ok (cleaned_by spec_aliased batch_aliased)).
  { vm_compute. reflexivity. }
  split; [exact H|].
  apply (clean_keeps_column_order batch_aliased spec_aliased _ ).
  - apply NoDup_by_nodup. vm_compute. reflexivity.
  - exact H.
Defined.

End OnMoreSamples.
